(** * ConTest: BIOS-settings test step and HTTP API client

    A shallow embedding of
      - plugins/teststeps/.../main.go  (package bios_settings_set:
        [TargetRunner.Run], [runSet], [getOutputFromReader], [readBuffer],
        [parseSetOutput]; package hsi: [populateParams],
        [ValidateParameters], [New], [Load], [Name]),
      - plugins/teststeps/.../events.go ([emitEvent], [writeCommand],
        [writeCommandOutput]),
      - the HTTP transport of the ConTest client ([HTTP.request] and the six
        verb methods),
    together with the properties of these functions.

    Go values are modelled as follows: [[]byte] is [list byte], [string] is
    [string] (a sequence of bytes), a nil-able [error] is [option error], a
    Go multiple return [(T, error)] is a pair.  Calls into collaborators that
    the repository only consumes through an interface (the transport, the
    remote process, the event emitter, the HTTP server, the parameter
    expander) are functions or records supplied by the caller; every call is
    recorded in an explicit trace. *)

From Stdlib Require Import Strings.String Strings.Ascii Strings.Byte.
From Stdlib Require Import List ZArith NArith Bool Lia DecimalString DecimalZ.
From stdpp Require Import base strings gmap.
Import ListNotations.

Local Open Scope string_scope.
Local Open Scope list_scope.

(** ** Go errors *)

(** An [error] value.  [io_EOF] is the sentinel [io.EOF], compared by
    identity in the source; [errors_New] is what [errors.New] and a
    [fmt.Errorf] without the wrapping verb return; [fmt_wrapError] is a
    [fmt.Errorf] that wraps its argument; the last two are the error structs
    of encoding/json. *)
Inductive error : Type :=
| io_EOF
| errors_New (text : string)
| fmt_wrapError (text : string) (err : error)
| json_SyntaxError (msg : string) (Offset : nat)
| json_UnmarshalTypeError (Value : string) (Type_ : string) (Struct Field : string).

(** The method [Error()] of an error value. *)
Definition Error_text (e : error) : string :=
  match e with
  | io_EOF => "EOF"
  | errors_New s => s
  | fmt_wrapError s _ => s
  | json_SyntaxError m _ => m
  | json_UnmarshalTypeError v t s f =>
      if (String.eqb s "" && String.eqb f "")%bool
      then "json: cannot unmarshal " ++ v ++ " into Go value of type " ++ t
      else "json: cannot unmarshal " ++ v ++ " into Go struct field "
             ++ s ++ "." ++ f ++ " of type " ++ t
  end.

(** [err == io.EOF] *)
Definition is_EOF (e : error) : bool :=
  match e with io_EOF => true | _ => false end.

(** [fmt.Errorf(format, ...)] with the message already formatted; the verbs
    used in the source are [%v], [%s] and [%q] on strings and errors. *)
Definition fmt_Errorf (text : string) : error := errors_New text.

(** [fmt.Errorf("...: %w", err)] *)
Definition fmt_Errorf_w (text : string) (err : error) : error :=
  fmt_wrapError (text ++ Error_text err) err.

(** [string(b)] and [[]byte(s)] *)
Definition string_of_bytes (b : list byte) : string := string_of_list_byte b.
Definition bytes_of_string (s : string) : list byte := list_byte_of_string s.

(** ** Streams: io.Reader, io.Copy *)

(** An [io.Reader] is given by the results of its successive [Read] calls:
    the bytes delivered and the error returned with them.  A reader whose
    script is exhausted returns [0, io.EOF].  The script is finite: the
    pipes of a process are read after [Wait] has returned or [Start] has
    failed, and the body of an HTTP response ends. *)
Definition Reader : Type := list (list byte * option error).

(** [io.Copy(buf, r)] into a [bytes.Buffer] holding [buf]: reads until a
    [Read] returns an error; [io.EOF] ends the copy without an error.  The
    buffer keeps what was written before the error. *)
Fixpoint io_Copy (buf : list byte) (r : Reader) : list byte * option error :=
  match r with
  | [] => (buf, None)
  | (bs, None) :: rest => io_Copy (buf ++ bs) rest
  | (bs, Some e) :: _ => (buf ++ bs, if is_EOF e then None else Some e)
  end.

(** [ioutil.ReadAll(r)]: everything up to the end of the stream, and the
    error that stopped the reading, if any. *)
Definition ioutil_ReadAll (r : Reader) : list byte * option error := io_Copy [] r.

(** ** encoding/json

    The part of the standard decoder and encoder that the two packages rely
    on: the syntax scanner (scanner.go), string unquoting and struct decoding
    (decode.go), and the string encoder (encode.go).  [Unmarshal] first
    checks the whole input for syntax, then stores the value into the
    destination; a destination keeps the fields the input does not mention. *)
Module json.

(** What [json.Unmarshal(data, &v)] does at the type of [v]: the updated
    destination and the returned error. *)
Class JSON (T : Type) : Type :=
  Unmarshal : list byte -> T -> T * option error.

(** What [json.Marshal(v)] does at the type of [v]. *)
Class Marshaler (T : Type) : Type :=
  Marshal : T -> list byte * option error.

(** *** Characters *)

Definition code (c : ascii) : N := N_of_ascii c.
Definition chr (n : N) : ascii := ascii_of_N n.
Definition eqc (c d : ascii) : bool := Ascii.eqb c d.

Definition quote : ascii := "034"%char.
Definition backslash : ascii := "092"%char.
Definition apostrophe : ascii := "039"%char.

Definition between (lo hi : N) (c : ascii) : bool :=
  ((lo <=? code c) && (code c <=? hi))%N.

Definition isSpace (c : ascii) : bool :=
  eqc c " " || eqc c "009" || eqc c "013" || eqc c "010".
Definition isDigit (c : ascii) : bool := between 48 57 c.
Definition isDigit19 (c : ascii) : bool := between 49 57 c.
Definition isHex (c : ascii) : bool :=
  isDigit c || between 97 102 c || between 65 70 c.

Definition hexval (c : ascii) : N :=
  if isDigit c then (code c - 48)%N
  else if between 97 102 c then (code c - 87)%N
  else (code c - 55)%N.

Definition lowerhex (n : N) : ascii :=
  if (n <? 10)%N then chr (48 + n) else chr (87 + n).

Definition hex2 (n : N) : string :=
  String (lowerhex (n / 16)) (String (lowerhex (n mod 16)) EmptyString).

(** The UTF-8 encoding of a code point ([utf8.AppendRune]); surrogates and
    values above U+10FFFF are encoded as U+FFFD. *)
Definition utf8_encode (r : N) : list ascii :=
  if (r <? 128)%N then [chr r]
  else if (r <? 2048)%N then [chr (192 + r / 64); chr (128 + r mod 64)]
  else if ((55296 <=? r) && (r <? 57344) || (1114111 <? r))%N
       then [chr 239; chr 191; chr 189]
  else if (r <? 65536)%N
       then [chr (224 + r / 4096); chr (128 + (r / 64) mod 64); chr (128 + r mod 64)]
  else [chr (240 + r / 262144); chr (128 + (r / 4096) mod 64);
        chr (128 + (r / 64) mod 64); chr (128 + r mod 64)].

(** The size of the well-formed UTF-8 sequence that [s] starts with, or
    [None] where [utf8.DecodeRune] returns [(RuneError, 1)]. *)
Definition utf8_size (s : list ascii) : option nat :=
  let cont := between 128 191 in
  match s with
  | [] => None
  | b0 :: t =>
      if between 0 127 b0 then Some 1%nat
      else if between 194 223 b0 then
        match t with b1 :: _ => if cont b1 then Some 2%nat else None | _ => None end
      else if between 224 239 b0 then
        let ok1 := if eqc b0 (chr 224) then between 160 191
                   else if eqc b0 (chr 237) then between 128 159 else cont in
        match t with
        | b1 :: b2 :: _ => if ok1 b1 && cont b2 then Some 3%nat else None
        | _ => None
        end
      else if between 240 244 b0 then
        let ok1 := if eqc b0 (chr 240) then between 144 191
                   else if eqc b0 (chr 244) then between 128 143 else cont in
        match t with
        | b1 :: b2 :: b3 :: _ =>
            if ok1 b1 && cont b2 && cont b3 then Some 4%nat else None
        | _ => None
        end
      else None
  end.

(** [quoteChar] of scanner.go: the offending byte as shown in a syntax
    error. *)
Definition esc (x : ascii) : string := String backslash (String x EmptyString).

Definition quoteChar (c : ascii) : string :=
  let q (s : string) := String apostrophe (s +:+ String apostrophe EmptyString) in
  let n := code c in
  if eqc c apostrophe then q (esc apostrophe)
  else if eqc c quote then q (String quote EmptyString)
  else if eqc c backslash then q (esc backslash)
  else if between 32 126 c then q (String c EmptyString)
  else if (n =? 7)%N then q (esc "a")
  else if (n =? 8)%N then q (esc "b")
  else if (n =? 12)%N then q (esc "f")
  else if (n =? 10)%N then q (esc "n")
  else if (n =? 13)%N then q (esc "r")
  else if (n =? 9)%N then q (esc "t")
  else if (n =? 11)%N then q (esc "v")
  else if ((n <? 32) || (n =? 127))%N then q (esc "x" +:+ hex2 n)
  else if ((161 <=? n) && negb (n =? 173))%N then q (string_of_list_ascii (utf8_encode n))
  else q (esc "u" +:+ "00" +:+ hex2 n).

(** *** Values *)

(** A decoded JSON value.  Strings and keys are unquoted; a number keeps
    its literal; an object keeps its members in input order, each with the
    offsets of its value in the input. *)
#[local] Unset Elimination Schemes.
Inductive value : Type :=
| JNull
| JBool (b : bool)
| JNumber (lit : string)
| JString (s : string)
| JArray (elems : list value)
| JObject (members : list (string * (nat * nat) * value)).
#[local] Set Elimination Schemes.

(** *** Unquoting (unquoteBytes of decode.go) *)

(** [getu4]: the value of a leading [\uXXXX]. *)
Definition getu4 (s : list ascii) : option N :=
  match s with
  | b :: u :: h1 :: h2 :: h3 :: h4 :: _ =>
      if eqc b backslash && eqc u "u" && isHex h1 && isHex h2 && isHex h3 && isHex h4
      then Some (hexval h1 * 4096 + hexval h2 * 256 + hexval h3 * 16 + hexval h4)%N
      else None
  | _ => None
  end.

Definition isSurrogate (r : N) : bool := ((55296 <=? r) && (r <? 57344))%N.

(** [utf16.DecodeRune]: [None] stands for the replacement character. *)
Definition utf16_DecodeRune (r1 r2 : N) : option N :=
  if ((55296 <=? r1) && (r1 <? 56320) && (56320 <=? r2) && (r2 <? 57344))%N
  then Some ((r1 - 55296) * 1024 + (r2 - 56320) + 65536)%N
  else None.

(** The bytes a simple escape letter stands for. *)
Definition unescape (c : ascii) : list ascii :=
  if eqc c "b" then [chr 8] else if eqc c "f" then [chr 12]
  else if eqc c "n" then [chr 10] else if eqc c "r" then [chr 13]
  else if eqc c "t" then [chr 9] else [c].

(** The body of a string literal, between its quotes, to the string it
    denotes.  [skip] counts input bytes already accounted for.  Ill-formed
    UTF-8 becomes U+FFFD, a lone surrogate escape too. *)
Fixpoint unquote (skip : nat) (s : list ascii) : list ascii :=
  match s with
  | [] => []
  | c :: rest =>
      match skip with
      | S k => unquote k rest
      | O =>
          if eqc c backslash then
            match rest with
            | [] => []
            | e :: _ =>
                if eqc e "u" then
                  match getu4 s with
                  | None => unquote 0 rest
                  | Some rr =>
                      if isSurrogate rr then
                        match getu4 (drop 6 s) with
                        | Some rr1 =>
                            match utf16_DecodeRune rr rr1 with
                            | Some dec => utf8_encode dec ++ unquote 11 rest
                            | None => utf8_encode 65533 ++ unquote 5 rest
                            end
                        | None => utf8_encode 65533 ++ unquote 5 rest
                        end
                      else utf8_encode rr ++ unquote 5 rest
                  end
                else unescape e ++ unquote 1 rest
            end
          else
            match utf8_size s with
            | Some n => take n s ++ unquote (pred n) rest
            | None => utf8_encode 65533 ++ unquote 0 rest
            end
      end
  end.

(** *** The scanner (scanner.go) *)

(** A member of an object: key, offsets of the value, value. *)
Definition member : Type := string * (nat * nat) * value.

(** The stack of open containers ([parseState]), each with what has been
    read of it, newest first.  An object frame holds the key whose value
    is awaited. *)
Inductive frame : Type :=
| parseArray (start : nat) (elems : list value)
| parseObject (start : nat) (members : list member) (key : option string).

Inductive number_state : Type :=
| stateNeg | state0 | state1 | stateDot | stateDot0 | stateE | stateESign | stateE0.

(** The scanner's [step], with the token in progress. *)
Inductive step_state : Type :=
| stateBeginValue
| stateBeginValueOrEmpty
| stateBeginStringOrEmpty
| stateBeginString
| stateInString (start : nat) (body : list ascii)
| stateInStringEsc (start : nat) (body : list ascii)
| stateInStringEscU (k : nat) (start : nat) (body : list ascii)
| stateNumber (k : number_state) (start : nat) (lit : list ascii)
| stateLiteral (start : nat) (rest : list ascii) (word : string) (v : value)
| stateEndValue
| stateEndTop (v : value)
| stateError (e : error).

Definition scanner : Type := list frame * step_state.

Definition maxNestingDepth : N := 10000.

Definition error_at (c : ascii) (off : nat) (context : string) : step_state :=
  stateError (json_SyntaxError
                ("invalid character " +:+ quoteChar c +:+ " " +:+ context) off).

(** A value that ends at [stop] goes to the innermost open container, or
    is the top-level value. *)
Definition attach (stack : list frame) (start stop : nat) (v : value) : scanner :=
  match stack with
  | [] => ([], stateEndTop v)
  | parseArray s el :: st => (parseArray s (v :: el) :: st, stateEndValue)
  | parseObject s ms (Some k) :: st =>
      (parseObject s ((k, (start, stop), v) :: ms) None :: st, stateEndValue)
  | parseObject s ms None :: st =>
      match v with
      | JString k => (parseObject s ms (Some k) :: st, stateEndValue)
      | _ => (stack, stateEndValue)
      end
  end.

(** The closing bracket at [pos] ends the innermost container. *)
Definition close (stack : list frame) (pos : nat) : scanner :=
  match stack with
  | parseArray s el :: st => attach st s (S pos) (JArray (rev el))
  | parseObject s ms _ :: st => attach st s (S pos) (JObject (rev ms))
  | [] => ([], stateEndValue)
  end.

Definition pushParseState (stack : list frame) (c : ascii) (off : nat)
    (f : frame) (successState : step_state) : scanner :=
  if (N.of_nat (length stack) <? maxNestingDepth)%N then (f :: stack, successState)
  else (stack, error_at c off "exceeded max depth").

Definition endTop (v : value) (c : ascii) (off : nat) : scanner :=
  if isSpace c then ([], stateEndTop v)
  else ([], error_at c off "after top-level value").

Definition endValue (stack : list frame) (pos off : nat) (c : ascii) : scanner :=
  if isSpace c then (stack, stateEndValue)
  else match stack with
       | [] => (stack, stateEndValue)
       | parseObject _ _ (Some _) :: _ =>
           if eqc c ":" then (stack, stateBeginValue)
           else (stack, error_at c off "after object key")
       | parseObject _ _ None :: _ =>
           if eqc c "," then (stack, stateBeginString)
           else if eqc c "}" then close stack pos
           else (stack, error_at c off "after object key:value pair")
       | parseArray _ _ :: _ =>
           if eqc c "," then (stack, stateBeginValue)
           else if eqc c "]" then close stack pos
           else (stack, error_at c off "after array element")
       end.

Definition beginValue (stack : list frame) (pos off : nat) (c : ascii) : scanner :=
  if isSpace c then (stack, stateBeginValue)
  else if eqc c "{" then
    pushParseState stack c off (parseObject pos [] None) stateBeginStringOrEmpty
  else if eqc c "[" then
    pushParseState stack c off (parseArray pos []) stateBeginValueOrEmpty
  else if eqc c quote then (stack, stateInString pos [])
  else if eqc c "-" then (stack, stateNumber stateNeg pos [c])
  else if eqc c "0" then (stack, stateNumber state0 pos [c])
  else if eqc c "t" then
    (stack, stateLiteral pos ["r"; "u"; "e"]%char "true" (JBool true))
  else if eqc c "f" then
    (stack, stateLiteral pos ["a"; "l"; "s"; "e"]%char "false" (JBool false))
  else if eqc c "n" then
    (stack, stateLiteral pos ["u"; "l"; "l"]%char "null" JNull)
  else if isDigit19 c then (stack, stateNumber state1 pos [c])
  else (stack, error_at c off "looking for beginning of value").

Definition beginString (stack : list frame) (pos off : nat) (c : ascii) : scanner :=
  if isSpace c then (stack, stateBeginString)
  else if eqc c quote then (stack, stateInString pos [])
  else (stack, error_at c off "looking for beginning of object key string").

Inductive number_next : Type :=
| NumGo (k : number_state) | NumEnd | NumErr (context : string).

Definition number_step (k : number_state) (c : ascii) : number_next :=
  let after0 :=
    if eqc c "." then NumGo stateDot
    else if eqc c "e" || eqc c "E" then NumGo stateE else NumEnd in
  let afterESign :=
    if isDigit c then NumGo stateE0 else NumErr "in exponent of numeric literal" in
  match k with
  | stateNeg =>
      if eqc c "0" then NumGo state0
      else if isDigit19 c then NumGo state1 else NumErr "in numeric literal"
  | state1 => if isDigit c then NumGo state1 else after0
  | state0 => after0
  | stateDot =>
      if isDigit c then NumGo stateDot0
      else NumErr "after decimal point in numeric literal"
  | stateDot0 =>
      if isDigit c then NumGo stateDot0
      else if eqc c "e" || eqc c "E" then NumGo stateE else NumEnd
  | stateE => if eqc c "+" || eqc c "-" then NumGo stateESign else afterESign
  | stateESign => afterESign
  | stateE0 => if isDigit c then NumGo stateE0 else NumEnd
  end.

Definition isEscape (c : ascii) : bool :=
  eqc c "b" || eqc c "f" || eqc c "n" || eqc c "r" || eqc c "t"
  || eqc c backslash || eqc c "/" || eqc c quote.

(** One byte [c], at index [pos], through the scanner; [off] is the
    offset reported in an error. *)
Definition step (stack : list frame) (s : step_state) (pos off : nat) (c : ascii)
  : scanner :=
  match s with
  | stateBeginValue => beginValue stack pos off c
  | stateBeginValueOrEmpty =>
      if isSpace c then (stack, s)
      else if eqc c "]" then close stack pos
      else beginValue stack pos off c
  | stateBeginStringOrEmpty =>
      if isSpace c then (stack, s)
      else if eqc c "}" then close stack pos
      else beginString stack pos off c
  | stateBeginString => beginString stack pos off c
  | stateInString start body =>
      if eqc c quote then
        attach stack start (S pos)
               (JString (string_of_list_ascii (unquote 0 (rev body))))
      else if eqc c backslash then (stack, stateInStringEsc start (c :: body))
      else if (code c <? 32)%N then (stack, error_at c off "in string literal")
      else (stack, stateInString start (c :: body))
  | stateInStringEsc start body =>
      if eqc c "u" then (stack, stateInStringEscU 0 start (c :: body))
      else if isEscape c then (stack, stateInString start (c :: body))
      else (stack, error_at c off "in string escape code")
  | stateInStringEscU k start body =>
      if isHex c then
        (stack, if (k <? 3)%nat then stateInStringEscU (S k) start (c :: body)
                else stateInString start (c :: body))
      else (stack, error_at c off
                     ("in " +:+ esc "u" +:+ " hexadecimal character escape"))
  | stateNumber k start lit =>
      match number_step k c with
      | NumGo k' => (stack, stateNumber k' start (c :: lit))
      | NumErr context => (stack, error_at c off context)
      | NumEnd =>
          match attach stack start pos (JNumber (string_of_list_ascii (rev lit))) with
          | (_, stateEndTop v) => endTop v c off
          | (stack', _) => endValue stack' pos off c
          end
      end
  | stateLiteral start rest word v =>
      match rest with
      | [] => (stack, s)
      | x :: rest' =>
          if eqc c x then
            match rest' with
            | [] => attach stack start (S pos) v
            | _ => (stack, stateLiteral start rest' word v)
            end
          else (stack, error_at c off
                         ("in literal " +:+ word +:+ " (expecting "
                            +:+ quoteChar x +:+ ")"))
      end
  | stateEndValue => endValue stack pos off c
  | stateEndTop v => endTop v c off
  | stateError _ => (stack, s)
  end.

(** The end of the input ([scanner.eof]): a blank is scanned, which ends a
    top-level number. *)
Definition eof (stack : list frame) (s : step_state) (pos : nat) : error + value :=
  match s with
  | stateEndTop v => inr v
  | _ =>
      match step stack s pos pos " " with
      | (_, stateEndTop v) => inr v
      | (_, stateError e) => inl e
      | _ => inl (json_SyntaxError "unexpected end of JSON input" pos)
      end
  end.

Fixpoint scan (stack : list frame) (s : step_state) (pos : nat) (data : list ascii)
  : error + value :=
  match data with
  | [] => eof stack s pos
  | c :: rest =>
      match step stack s pos (S pos) c with
      | (_, stateError e) => inl e
      | (stack', s') => scan stack' s' (S pos) rest
      end
  end.

(** The value that [data] holds, or the syntax error of [checkValid]. *)
Definition parse (data : list byte) : error + value :=
  scan [] stateBeginValue 0 (list_ascii_of_string (string_of_bytes data)).

(** *** Decoding into a struct (decode.go) *)

(** How a value went into a field: stored; refused for its JSON type
    (the decoder notes an [UnmarshalTypeError] and goes on); or refused by
    the field's own [UnmarshalJSON] (the decoder stops). *)
Inductive stored : Type :=
| Stored
| Mismatch (Value : string)
| Abort (e : error).

(** A field of a struct type [T] that the decoder can fill: its key (the
    tag, or the name of the Go field), its Go type, and what storing a
    value, given with its raw text, does to the struct. *)
Record field (T : Type) : Type := Field {
  name : string;
  type_ : string;
  store : string -> value -> T -> T * stored }.
Arguments Field {T} _ _ _.
Arguments name {T} _.
Arguments type_ {T} _.
Arguments store {T} _ _ _ _.

(** A field of type [string]. *)
Definition string_field {T : Type} (key : string) (set : string -> T -> T) : field T :=
  Field key "string"
    (fun _ v dst =>
       match v with
       | JNull => (dst, Stored)
       | JString s => (set s dst, Stored)
       | JBool _ => (dst, Mismatch "bool")
       | JNumber _ => (dst, Mismatch "number")
       | JArray _ => (dst, Mismatch "array")
       | JObject _ => (dst, Mismatch "object")
       end).

(** A field of type [json.RawMessage]: it takes the raw text of any value,
    of [null] too. *)
Definition RawMessage_field {T : Type} (key : string) (set : list byte -> T -> T)
  : field T :=
  Field key "json.RawMessage"
    (fun raw _ dst => (set (bytes_of_string raw) dst, Stored)).

(** A field of type [*U] where [*U] has an [UnmarshalJSON] method: [null]
    sets the pointer to nil; any other value goes to the method, on a new
    [U] when the pointer is nil. *)
Definition pointer_field {T U : Type} (key type_name : string) (zero : U)
    (UnmarshalJSON : list byte -> U -> U * option error)
    (get : T -> option U) (set : option U -> T -> T) : field T :=
  Field key type_name
    (fun raw v dst =>
       match v with
       | JNull => (set None dst, Stored)
       | _ =>
           let u := match get dst with Some u => u | None => zero end in
           match UnmarshalJSON (bytes_of_string raw) u with
           | (u', None) => (set (Some u') dst, Stored)
           | (u', Some e) => (set (Some u') dst, Abort e)
           end
       end).

(** [foldName]: keys are compared after folding letters to upper case;
    U+017F and U+212A count as s and k. *)
Fixpoint foldName (skip : nat) (s : list ascii) : list ascii :=
  match s with
  | [] => []
  | c :: rest =>
      match skip with
      | S k => foldName k rest
      | O =>
          if between 97 122 c then chr (code c - 32) :: foldName 0 rest
          else
            match rest with
            | c1 :: c2 :: _ =>
                if eqc c (chr 197) && eqc c1 (chr 191) then "S"%char :: foldName 1 rest
                else if eqc c (chr 226) && eqc c1 (chr 132) && eqc c2 (chr 170)
                     then "K"%char :: foldName 2 rest
                else c :: foldName 0 rest
            | [c1] =>
                if eqc c (chr 197) && eqc c1 (chr 191) then ["S"%char]
                else c :: foldName 0 rest
            | [] => [c]
            end
      end
  end.

Definition equalFold (a b : string) : bool :=
  String.eqb (string_of_list_ascii (foldName 0 (list_ascii_of_string a)))
             (string_of_list_ascii (foldName 0 (list_ascii_of_string b))).

(** The field a key addresses: the one of that exact name, else the first
    whose name is equal under folding. *)
Definition find_field {T : Type} (fields : list (field T)) (key : string)
  : option (field T) :=
  match List.find (fun f => String.eqb (name f) key) fields with
  | Some f => Some f
  | None => List.find (fun f => equalFold (name f) key) fields
  end.

(** The members of an object into the struct, in input order.  A member
    without a field is skipped; the first type error is kept while
    decoding goes on. *)
Fixpoint decode_members {T : Type} (struct_ : string) (fields : list (field T))
    (input : string) (ms : list member) (dst : T) (savedError : option error)
  : T * option error :=
  match ms with
  | [] => (dst, savedError)
  | (key, (start, stop), v) :: rest =>
      match find_field fields key with
      | None => decode_members struct_ fields input rest dst savedError
      | Some f =>
          match store f (String.substring start (stop - start) input) v dst with
          | (dst', Stored) => decode_members struct_ fields input rest dst' savedError
          | (dst', Mismatch what) =>
              decode_members struct_ fields input rest dst'
                (match savedError with
                 | Some e => Some e
                 | None => Some (json_UnmarshalTypeError what (type_ f) struct_ (name f))
                 end)
          | (dst', Abort e) => (dst', Some e)
          end
      end
  end.

(** [json.Unmarshal(data, &dst)] for a struct: a syntax error leaves [dst]
    alone; [null] is accepted and changes nothing; an object fills the
    fields it names; any other value is a type error. *)
Definition Unmarshal_struct {T : Type} (struct_ type_name : string)
    (fields : list (field T)) : JSON T :=
  fun data dst =>
    match parse data with
    | inl e => (dst, Some e)
    | inr v =>
        let mismatch what := (dst, Some (json_UnmarshalTypeError what type_name "" "")) in
        match v with
        | JNull => (dst, None)
        | JObject ms =>
            decode_members struct_ fields (string_of_bytes data) ms dst None
        | JBool _ => mismatch "bool"
        | JNumber _ => mismatch "number"
        | JString _ => mismatch "string"
        | JArray _ => mismatch "array"
        end
    end.

(** *** Encoding a string (encode.go, with HTML escaping) *)

Definition u00 (c : ascii) : list ascii :=
  [backslash; "u"; "0"; "0"]%char ++ list_ascii_of_string (hex2 (code c)).

Fixpoint appendString (skip : nat) (s : list ascii) : list ascii :=
  match s with
  | [] => []
  | c :: rest =>
      match skip with
      | S k => appendString k rest
      | O =>
          if eqc c quote || eqc c backslash then backslash :: c :: appendString 0 rest
          else if (code c =? 8)%N then [backslash; "b"]%char ++ appendString 0 rest
          else if (code c =? 12)%N then [backslash; "f"]%char ++ appendString 0 rest
          else if (code c =? 10)%N then [backslash; "n"]%char ++ appendString 0 rest
          else if (code c =? 13)%N then [backslash; "r"]%char ++ appendString 0 rest
          else if (code c =? 9)%N then [backslash; "t"]%char ++ appendString 0 rest
          else if (code c <? 32)%N || eqc c "<" || eqc c ">" || eqc c "&"
               then u00 c ++ appendString 0 rest
          else if (code c <? 128)%N then c :: appendString 0 rest
          else
            match utf8_size s with
            | None => [backslash; "u"; "f"; "f"; "f"; "d"]%char ++ appendString 0 rest
            | Some n =>
                match rest with
                | c1 :: c2 :: _ =>
                    if eqc c (chr 226) && eqc c1 (chr 128)
                       && (eqc c2 (chr 168) || eqc c2 (chr 169))
                    then [backslash; "u"; "2"; "0"; "2"]%char
                           ++ [if eqc c2 (chr 168) then "8" else "9"]%char
                           ++ appendString 2 rest
                    else take n s ++ appendString (pred n) rest
                | _ => take n s ++ appendString (pred n) rest
                end
            end
      end
  end.

(** A Go string as a JSON string literal. *)
Definition encode_string (s : string) : string :=
  String quote (string_of_list_ascii (appendString 0 (list_ascii_of_string s)))
    +:+ String quote EmptyString.

End json.

(** ** Calls into collaborators

    A computation returns its value together with the calls it made, in
    order. *)
Section Trace.
Context {call : Type}.

Definition M (A : Type) : Type := A * list call.

Definition ret {A : Type} (a : A) : M A := (a, []).

Definition bind {A B : Type} (m : M A) (k : A -> M B) : M B :=
  let (b, t) := k (fst m) in (b, snd m ++ t).

Definition does (c : call) : M unit := (tt, [c]).
End Trace.
Arguments M : clear implicits.

Declare Scope go_scope.
Delimit Scope go_scope with go.
Notation "x <- m ;; k" := (bind m (fun x => k))
  (at level 100, m at next level, right associativity) : go_scope.
Notation "m ;;; k" := (bind m (fun _ => k))
  (at level 100, right associativity) : go_scope.

Local Open Scope go_scope.

(** ** Collaborators of a test step

    The interfaces of the framework that the step consumes.  A collaborator
    that returns [(T, error)] hands back exactly one of the two. *)
Section Collaborators.
Variable Target : Type.

(** testevent.Data *)
Record Data : Type := {
  EventName : string;
  Target_ : Target;
  Payload : list byte }.

(** testevent.Emitter *)
Record Emitter : Type := {
  Emit : Data -> option error }.

(** transport.Process: what each method returns during this run. *)
Record Process : Type := {
  StdoutPipe : error + Reader;
  StderrPipe : error + Reader;
  Start : option error;
  Wait : option error }.

(** transport.Transport *)
Record Transport : Type := {
  NewProcess : string -> list string -> error + Process }.

(** The calls a run makes, as the trace records them. *)
Inductive call : Type :=
| Infof_call (line : string)
| WithTimeout_call (d : Z)
| cancel_call
| ExpandObject_call
| NewTransport_call (proto : string) (options : list byte)
| NewProcess_call (bin : string) (args : list string)
| StdoutPipe_call
| StderrPipe_call
| Start_call
| Wait_call
| Printf_call (text : string)
| Emit_call (d : Data) (result : option error).
End Collaborators.

Arguments EventName {Target} _.
Arguments Target_ {Target} _.
Arguments Payload {Target} _.
Arguments Build_Data {Target} _ _ _.
Arguments Emit {Target} _.
Arguments Build_Emitter {Target} _.
Arguments Infof_call {Target} _.
Arguments WithTimeout_call {Target} _.
Arguments cancel_call {Target}.
Arguments ExpandObject_call {Target}.
Arguments NewTransport_call {Target} _ _.
Arguments NewProcess_call {Target} _ _.
Arguments StdoutPipe_call {Target}.
Arguments StderrPipe_call {Target}.
Arguments Start_call {Target}.
Arguments Wait_call {Target}.
Arguments Printf_call {Target} _.
Arguments Emit_call {Target} _ _.

(** The events that reached the emitter and were accepted, in order. *)
Definition emitted {Target : Type} (t : list (call Target)) : list (Data Target) :=
  omap (fun c => match c with Emit_call d None => Some d | _ => None end) t.

(** Whether a call reaches out to the remote side: building the transport
    or anything done with it. *)
Definition is_remote {Target : Type} (c : call Target) : bool :=
  match c with
  | NewTransport_call _ _ | NewProcess_call _ _
  | StdoutPipe_call | StderrPipe_call | Start_call | Wait_call => true
  | _ => false
  end.

(** ** events.go *)
Module events.
Section events.
Context {Target : Type}.

Definition EventStdout : string := "Stdout".
Definition EventStderr : string := "Stderr".

Definition Events : list string := [EventStdout; EventStderr].

Record eventPayload : Type := { Msg : string }.

Definition emitEvent {P : Type} `{!json.Marshaler P}
    (name : string) (payload : P) (tgt : Target) (ev : Emitter Target)
  : M (call Target) (option error) :=
  let (payloadData, err) := json.Marshal payload in
  match err with
  | Some err =>
      ret (Some (fmt_Errorf_w
                   ("cannot marshal payload for event '" +:+ name +:+ "': ") err))
  | None =>
      let msg := payloadData in
      let data := {| EventName := name; Target_ := tgt; Payload := msg |} in
      let err := Emit ev data in
      does (Emit_call data err) ;;;
      match err with
      | Some err => ret (Some (fmt_Errorf_w "cannot emit event EventCmdStart: " err))
      | None => ret None
      end
  end.
End events.

(** [json.Marshal] of an [eventPayload]: an object with the one member
    [Msg]; it cannot fail. *)
Definition Marshal_eventPayload : json.Marshaler eventPayload :=
  fun p =>
    (bytes_of_string ("{" +:+ json.encode_string "Msg" +:+ ":"
                          +:+ json.encode_string (Msg p) +:+ "}"), None).
End events.

(** ** main.go, package bios_settings_set *)
Module bios_settings_set.
Import events.

Definition supportedProto : string := "ssh".
Definition privileged : string := "sudo".
Definition cmd : string := "wmi".
Definition jsonFlag : string := "--json".

Record Error : Type := { Msg : string }.

(** Modelled from the spec: the declaration of the step's input
    parameters is not among the sources; the fields are the ones main.go
    reads ([params.Transport.Proto], [params.Parameter.Password], ...,
    [r.ts.Options.Timeout]). *)
Record Transport_params : Type := {
  Proto : string;
  Options_ : list byte }.

Record Parameter_params : Type := {
  ToolPath : string;
  Password : string;
  KeyPath : string;
  Option_ : string;
  Value : string;
  ShallFail : bool }.

Record Options_params : Type := {
  Timeout : Z }.

Record inputStepParams : Type := {
  Transport_ : Transport_params;
  Parameter_ : Parameter_params;
  Options : Options_params }.

(** The step embeds its input parameters. *)
Record TestStep : Type := {
  inputStepParams_ : inputStepParams }.

(** [json.Unmarshal] at [Error]: the one field has the key [error]. *)
Definition Unmarshal_Error : json.JSON Error :=
  json.Unmarshal_struct "Error" "bios_settings_set.Error"
    [json.string_field "error" (fun s _ => {| Msg := s |})].

Section TargetRunner.
Context {Target : Type}.
Context {Error_JSON : json.JSON Error} {eventPayload_Marshaler : json.Marshaler eventPayload}.

(** What the framework provides to a run: the target's printed form,
    [test.NewParamExpander(target).ExpandObject], and
    [transport.NewTransport]. *)
Record Framework : Type := {
  Target_String : Target -> string;
  ExpandObject : Target -> inputStepParams -> inputStepParams * option error;
  NewTransport : string -> list byte -> error + Transport }.

Record TargetRunner : Type := {
  ts : TestStep;
  ev : Emitter Target }.

Definition NewTargetRunner (ts : TestStep) (ev : Emitter Target) : TargetRunner :=
  {| ts := ts; ev := ev |}.

Definition parseSetOutput (stderr : list byte) (fail : bool) : option error :=
  let err := {| Msg := "" |} in
  let (err, decode) :=
    if negb (length stderr =? 0)%nat then json.Unmarshal stderr err
    else (err, None) in
  match decode with
  | Some err' =>
      Some (fmt_Errorf ("failed to unmarshal stderr: " +:+ Error_text err'))
  | None =>
      if negb (String.eqb (Msg err) "") then
        if String.eqb (Msg err) "BIOS options are locked, needs unlocking." && fail
        then None
        else if negb (String.eqb (Msg err) "") then Some (fmt_Errorf (Msg err))
        else None
      else None
  end.

(** readBuffer reads data from the provided io.Reader and returns it as
    a byte slice. *)
Definition readBuffer (r : Reader) : list byte * option error :=
  let (buf, err) := io_Copy [] r in
  match err with
  | Some e => if negb (is_EOF e) then ([], Some e) else (buf, None)
  | None => (buf, None)
  end.

(** getOutputFromReader reads data from the readers representing stdout
    and stderr, and returns the collected output as byte slices. *)
Definition getOutputFromReader (stdout stderr : Reader)
  : M (call Target) (list byte * list byte) :=
  let (outBuffer, err) := readBuffer stdout in
  match err with
  | Some err =>
      does (Printf_call ("failed to read from Stdout buffer: "
                           +:+ Error_text err +:+ String "010" EmptyString))
  | None => ret tt
  end ;;;
  let (errBuffer, err) := readBuffer stderr in
  match err with
  | Some err =>
      does (Printf_call ("failed to read from Stderr buffer: "
                           +:+ Error_text err +:+ String "010" EmptyString))
  | None => ret tt
  end ;;;
  ret (outBuffer, errBuffer).

Definition authString (params : inputStepParams) : string :=
  if negb (String.eqb (Password (Parameter_ params)) "") then
    "--password=" +:+ Password (Parameter_ params)
  else if negb (String.eqb (KeyPath (Parameter_ params)) "") then
    "--private-key=" +:+ KeyPath (Parameter_ params)
  else "".

Definition argv (params : inputStepParams) : list string :=
  [ ToolPath (Parameter_ params);
    cmd;
    "set";
    "--option=" +:+ Option_ (Parameter_ params);
    "--value=" +:+ Value (Parameter_ params);
    authString params;
    jsonFlag ].

(** The result is [(outcome, err)]. *)
Definition runSet (r : TargetRunner) (target : Target)
    (transport : Transport) (params : inputStepParams)
  : M (call Target) (option error * option error) :=
  does (NewProcess_call privileged (argv params)) ;;;
  match NewProcess transport privileged (argv params) with
  | inl err =>
      ret (None, Some (fmt_Errorf ("failed to create process: " +:+ Error_text err)))
  | inr proc =>
      does StdoutPipe_call ;;;
      match StdoutPipe proc with
      | inl err =>
          ret (None, Some (fmt_Errorf ("failed to pipe stdout: " +:+ Error_text err)))
      | inr stdoutPipe =>
          does StderrPipe_call ;;;
          match StderrPipe proc with
          | inl err =>
              ret (None,
                   Some (fmt_Errorf ("failed to pipe stderr: " +:+ Error_text err)))
          | inr stderrPipe =>
              does Start_call ;;;
              outcome <- match Start proc with
                         | None => does Wait_call ;;; ret (Wait proc)
                         | Some e => ret (Some e)
                         end ;;
              out <- getOutputFromReader stdoutPipe stderrPipe ;;
              let (stdout, stderr) := out in
              match parseSetOutput stderr (ShallFail (Parameter_ params)) with
              | Some err => ret (None, Some err)
              | None =>
                  err <- emitEvent EventStdout
                           {| events.Msg := string_of_bytes stdout |} target (ev r) ;;
                  match err with
                  | Some err =>
                      ret (None,
                           Some (fmt_Errorf ("cannot emit event: " +:+ Error_text err)))
                  | None =>
                      err <- emitEvent EventStderr
                               {| events.Msg := string_of_bytes stderr |} target (ev r) ;;
                      match err with
                      | Some err =>
                          ret (None,
                               Some (fmt_Errorf
                                       ("cannot emit event: " +:+ Error_text err)))
                      | None => ret (outcome, None)
                      end
                  end
              end
          end
      end
  end.

(** The body of [Run] after the context has been set up. *)
Definition Run_body (fw : Framework) (r : TargetRunner) (target : Target)
  : M (call Target) (option error) :=
  does ExpandObject_call ;;;
  let (params, err) := ExpandObject fw target (inputStepParams_ (ts r)) in
  match err with
  | Some err => ret (Some err)
  | None =>
      if negb (String.eqb (Proto (Transport_ params)) supportedProto) then
        ret (Some (fmt_Errorf
                     ("only " +:+ String json.quote supportedProto
                        +:+ String json.quote " is supported as protocol in this teststep")))
      else if String.eqb (Password (Parameter_ params)) ""
              && String.eqb (KeyPath (Parameter_ params)) "" then
        ret (Some (fmt_Errorf "password or certificate file must be set"))
      else if String.eqb (Option_ (Parameter_ params)) ""
              || String.eqb (Value (Parameter_ params)) "" then
        ret (Some (fmt_Errorf "bios option and value must be set"))
      else
        does (NewTransport_call (Proto (Transport_ params))
                                (Options_ (Transport_ params))) ;;;
        match NewTransport fw (Proto (Transport_ params))
                           (Options_ (Transport_ params)) with
        | inl err => ret (Some (fmt_Errorf_w "failed to create transport: " err))
        | inr transportProto =>
            res <- runSet r target transportProto params ;;
            let (outcome, err) := res in
            match err with
            | Some err => ret (Some err)
            | None => ret outcome
            end
        end
  end.

Definition Run (fw : Framework) (r : TargetRunner) (target : Target)
  : M (call Target) (option error) :=
  does (Infof_call ("Executing on target " +:+ Target_String fw target)) ;;;
  let timeout := Timeout (Options (inputStepParams_ (ts r))) in
  if negb (timeout =? 0)%Z then
    does (WithTimeout_call timeout) ;;;
    res <- Run_body fw r target ;;
    does cancel_call ;;;
    ret res
  else Run_body fw r target.

End TargetRunner.
End bios_settings_set.

(** ** The HTTP transport of the client (package http) *)

(** github.com/insomniacslk/xjson: an [error] that can travel as JSON. *)
Module xjson.
Record Error : Type := { Err : option error }.

Definition NewError (err : error) : Error := {| Err := Some err |}.
End xjson.

Module httplistener.
(** Modelled from the spec: httplistener.HTTPAPIError is not among the
    sources; the error body of the API is [{"msg": string}]. *)
Record HTTPAPIError : Type := { Msg : string }.

Definition Unmarshal_HTTPAPIError : json.JSON HTTPAPIError :=
  json.Unmarshal_struct "HTTPAPIError" "httplistener.HTTPAPIError"
    [json.string_field "Msg" (fun s _ => {| Msg := s |})].
End httplistener.

Module api.
(** Modelled from the spec: the response types of pkg/api are not among
    the sources; each carries the server identifier, the verb's typed data
    and an optional error, as the verb methods build them. *)
Record Response (D : Type) : Type := {
  ServerID : string;
  Data : D;
  Err : option xjson.Error }.
Arguments ServerID {D} _.
Arguments Data {D} _.
Arguments Err {D} _.
Arguments Build_Response {D} _ _ _.

(** The typed data of a verb: its zero value and its decoder. *)
Class ResponseData (D : Type) : Type := {
  zero : D;
  ResponseData_JSON : json.JSON D }.
End api.
#[global] Existing Instance api.ResponseData_JSON.

(** net/url and net/http, as far as the client uses them. *)
Module url.
(** url.Values *)
Abbreviation Values := (gmap string (list string)).

Definition Set_ (v : Values) (key value : string) : Values :=
  <[key := [value]]> v.

Definition Add (v : Values) (key value : string) : Values :=
  <[key := default [] (v !! key) ++ [value]]> v.

(** url.URL: the scheme, the path, and the rest of the address. *)
Record URL : Type := {
  Scheme : string;
  Path : string;
  rest : string }.
End url.

Module http.
Import url.

Definition StatusOK : Z := 200.

(** http.Response *)
Record Response : Type := {
  Status : string;
  StatusCode : Z;
  Body : Reader }.

(** HttpPartiallyDecodedResponse is a httplistener.HTTPAPIResponse, but
    with the Data not fully decoded yet *)
Record HTTPPartiallyDecodedResponse : Type := {
  ServerID : string;
  Type_ : string;
  Data : list byte;
  Error : option xjson.Error }.

(** HTTP communicates with ConTest Server via http(s)/json transport *)
Record HTTP : Type := { Addr : string }.

(** The calls of a request, as the trace records them. *)
Inductive call : Type :=
| Infof_call (fields : Values) (line : string)
| PostForm_call (address : string) (params : Values)
| Close_call.

(** [types.JobID] is a [uint64]; [int(jobID)] reinterprets it as a signed
    64-bit integer. *)
Definition int (jobID : Z) : Z :=
  (jobID + 2 ^ 63) mod 2 ^ 64 - 2 ^ 63.

(** strconv.Itoa *)
Definition Itoa (i : Z) : string :=
  DecimalString.NilZero.string_of_int (Z.to_int i).

(** [json.Unmarshal] at [HTTPPartiallyDecodedResponse], given the
    [UnmarshalJSON] method of [*xjson.Error]. *)
Definition Unmarshal_HTTPPartiallyDecodedResponse
    (xjson_UnmarshalJSON : list byte -> xjson.Error -> xjson.Error * option error)
  : json.JSON HTTPPartiallyDecodedResponse :=
  json.Unmarshal_struct "HTTPPartiallyDecodedResponse" "http.HTTPPartiallyDecodedResponse"
    [ json.string_field "ServerID"
        (fun s r => {| ServerID := s; Type_ := Type_ r; Data := Data r; Error := Error r |});
      json.string_field "Type"
        (fun s r => {| ServerID := ServerID r; Type_ := s; Data := Data r; Error := Error r |});
      json.RawMessage_field "Data"
        (fun d r => {| ServerID := ServerID r; Type_ := Type_ r; Data := d; Error := Error r |});
      json.pointer_field "Error" "xjson.Error" {| xjson.Err := None |}
        xjson_UnmarshalJSON Error
        (fun e r => {| ServerID := ServerID r; Type_ := Type_ r; Data := Data r; Error := e |}) ].

Section HTTP.
(** The world outside the client: [url.Parse] and [URL.String] of
    net/url, [http.PostForm] (the network and the server), the states of
    pkg/job with their names, and the typed data of the six verbs. *)
Variable url_Parse : string -> error + URL.
Variable URL_String : URL -> string.
Variable http_PostForm : string -> Values -> error + Response.
Context {State : Type} (State_String : State -> string).
Context {ResponseDataVersion ResponseDataStart ResponseDataStop
         ResponseDataStatus ResponseDataRetry ResponseDataList : Type}.
Context {Version_data : api.ResponseData ResponseDataVersion}
        {Start_data : api.ResponseData ResponseDataStart}
        {Stop_data : api.ResponseData ResponseDataStop}
        {Status_data : api.ResponseData ResponseDataStatus}
        {Retry_data : api.ResponseData ResponseDataRetry}
        {List_data : api.ResponseData ResponseDataList}.
Context {Response_JSON : json.JSON HTTPPartiallyDecodedResponse}
        {HTTPAPIError_JSON : json.JSON httplistener.HTTPAPIError}.

Definition request (h : HTTP) (requestor verb : string) (params : Values)
  : M call (option HTTPPartiallyDecodedResponse * option error) :=
  let params := Set_ params "requestor" requestor in
  match url_Parse (Addr h) with
  | inl err =>
      ret (None, Some (fmt_Errorf ("failed to parse server address '" +:+ Addr h
                                     +:+ "': " +:+ Error_text err)))
  | inr u =>
      if String.eqb (Scheme u) "" then
        ret (None, Some (errors_New "server URL scheme not specified"))
      else if negb (String.eqb (Scheme u) "http")
              && negb (String.eqb (Scheme u) "https") then
        ret (None, Some (fmt_Errorf ("unsupported URL scheme '" +:+ Scheme u
                                       +:+ "', please specify either http or https")))
      else
        let u := {| Scheme := Scheme u; Path := Path u +:+ "/" +:+ verb; rest := rest u |} in
        does (Infof_call params
                ("Requesting URL " +:+ URL_String u +:+ " with requestor ID '"
                   +:+ requestor +:+ "'" +:+ String "010" EmptyString)) ;;;
        does (PostForm_call (URL_String u) params) ;;;
        match http_PostForm (URL_String u) params with
        | inl err => ret (None, Some (fmt_Errorf ("HTTP POST failed: " +:+ Error_text err)))
        | inr resp =>
            res <-
              (let (body, err) := ioutil_ReadAll (Body resp) in
               match err with
               | Some err =>
                   ret (None, Some (fmt_Errorf ("cannot read HTTP response: "
                                                  +:+ Error_text err)))
               | None =>
                   does (Infof_call ∅
                           ("The server responded with status " +:+ Status resp
                              +:+ String "010" EmptyString)) ;;;
                   let apiResp :=
                     {| ServerID := ""; Type_ := ""; Data := []; Error := None |} in
                   if (StatusCode resp =? StatusOK)%Z then
                     let (apiResp, err') := json.Unmarshal body apiResp in
                     match err' with
                     | Some err' =>
                         ret (None,
                              Some (fmt_Errorf
                                      ("response is not a valid HTTP API response object: '"
                                         +:+ string_of_bytes body +:+ "': "
                                         +:+ Error_text err')))
                     | None =>
                         match err with
                         | Some err =>
                             ret (None,
                                  Some (fmt_Errorf ("cannot marshal HTTPAPIResponse: "
                                                      +:+ Error_text err)))
                         | None => ret (Some apiResp, None)
                         end
                     end
                   else
                     let apiErr := {| httplistener.Msg := "" |} in
                     let (apiErr, err') := json.Unmarshal body apiErr in
                     match err' with
                     | Some err' =>
                         ret (None,
                              Some (fmt_Errorf
                                      ("response is not a valid HTTP API Error object: '"
                                         +:+ string_of_bytes body +:+ "': "
                                         +:+ Error_text err')))
                     | None =>
                         ret (Some {| ServerID := ServerID apiResp;
                                      Type_ := Type_ apiResp;
                                      Data := Data apiResp;
                                      Error := Some (xjson.NewError
                                                       (errors_New (httplistener.Msg apiErr))) |},
                              None)
                     end
               end) ;;
            does Close_call ;;;
            ret res
        end
  end.
(** The six verb methods.  [request] returns a response whenever it
    returns no error, so the case of neither is not reached. *)
Definition Version (h : HTTP) (requestor : string)
  : M call (option (api.Response ResponseDataVersion) * option error) :=
  res <- request h requestor "version" ∅ ;;
  match res with
  | (_, Some err) => ret (None, Some err)
  | (None, None) => ret (None, None)
  | (Some resp, None) =>
      let data : ResponseDataVersion := api.zero in
      let (data, err) :=
        if negb (String.eqb (string_of_bytes (Data resp)) "")
        then json.Unmarshal (Data resp) data
        else (data, None) in
      match err with
      | Some err =>
          ret (None,
               Some (fmt_Errorf ("cannot decode json response: " +:+ Error_text err)))
      | None =>
          ret (Some {| api.ServerID := ServerID resp;
                       api.Data := data;
                       api.Err := Error resp |},
               None)
      end
  end.

Definition Start (h : HTTP) (requestor : string) (jobDescriptor : string)
  : M call (option (api.Response ResponseDataStart) * option error) :=
  let params := Add ∅ "jobDesc" jobDescriptor in
  res <- request h requestor "start" params ;;
  match res with
  | (_, Some err) => ret (None, Some err)
  | (None, None) => ret (None, None)
  | (Some resp, None) =>
      let data : ResponseDataStart := api.zero in
      let (data, err) :=
        if negb (String.eqb (string_of_bytes (Data resp)) "")
        then json.Unmarshal (Data resp) data
        else (data, None) in
      match err with
      | Some err =>
          ret (None,
               Some (fmt_Errorf ("cannot decode json response: " +:+ Error_text err)))
      | None =>
          ret (Some {| api.ServerID := ServerID resp;
                       api.Data := data;
                       api.Err := Error resp |},
               None)
      end
  end.

Definition Stop (h : HTTP) (requestor : string) (jobID : Z)
  : M call (option (api.Response ResponseDataStop) * option error) :=
  let params := Add ∅ "jobID" (Itoa (int jobID)) in
  res <- request h requestor "stop" params ;;
  match res with
  | (_, Some err) => ret (None, Some err)
  | (None, None) => ret (None, None)
  | (Some resp, None) =>
      let data : ResponseDataStop := api.zero in
      let (data, err) :=
        if negb (String.eqb (string_of_bytes (Data resp)) "")
        then json.Unmarshal (Data resp) data
        else (data, None) in
      match err with
      | Some err =>
          ret (None,
               Some (fmt_Errorf ("cannot decode json response: " +:+ Error_text err)))
      | None =>
          ret (Some {| api.ServerID := ServerID resp;
                       api.Data := data;
                       api.Err := Error resp |},
               None)
      end
  end.

Definition Status_ (h : HTTP) (requestor : string) (jobID : Z)
  : M call (option (api.Response ResponseDataStatus) * option error) :=
  let params := Add ∅ "jobID" (Itoa (int jobID)) in
  res <- request h requestor "status" params ;;
  match res with
  | (_, Some err) => ret (None, Some err)
  | (None, None) => ret (None, None)
  | (Some resp, None) =>
      let data : ResponseDataStatus := api.zero in
      let (data, err) :=
        if negb (String.eqb (string_of_bytes (Data resp)) "")
        then json.Unmarshal (Data resp) data
        else (data, None) in
      match err with
      | Some err =>
          ret (None,
               Some (fmt_Errorf ("cannot decode json response: " +:+ Error_text err)))
      | None =>
          ret (Some {| api.ServerID := ServerID resp;
                       api.Data := data;
                       api.Err := Error resp |},
               None)
      end
  end.

Definition Retry (h : HTTP) (requestor : string) (jobID : Z)
  : M call (option (api.Response ResponseDataRetry) * option error) :=
  let params := Add ∅ "jobID" (Itoa (int jobID)) in
  res <- request h requestor "retry" params ;;
  match res with
  | (_, Some err) => ret (None, Some err)
  | (None, None) => ret (None, None)
  | (Some resp, None) =>
      let data : ResponseDataRetry := api.zero in
      let (data, err) :=
        if negb (String.eqb (string_of_bytes (Data resp)) "")
        then json.Unmarshal (Data resp) data
        else (data, None) in
      match err with
      | Some err =>
          ret (None,
               Some (fmt_Errorf ("cannot decode json response: " +:+ Error_text err)))
      | None =>
          ret (Some {| api.ServerID := ServerID resp;
                       api.Data := data;
                       api.Err := Error resp |},
               None)
      end
  end.

Definition List_ (h : HTTP) (requestor : string) (states : list State)
    (tags : list string)
  : M call (option (api.Response ResponseDataList) * option error) :=
  let params : Values := ∅ in
  let params :=
    if (0 <? length states)%nat
    then Set_ params "states" (String.concat "," (map State_String states))
    else params in
  let params :=
    if (0 <? length tags)%nat
    then Set_ params "tags" (String.concat "," tags)
    else params in
  res <- request h requestor "list" params ;;
  match res with
  | (_, Some err) => ret (None, Some err)
  | (None, None) => ret (None, None)
  | (Some resp, None) =>
      let data : ResponseDataList := api.zero in
      let (data, err) :=
        if negb (String.eqb (string_of_bytes (Data resp)) "")
        then json.Unmarshal (Data resp) data
        else (data, None) in
      match err with
      | Some err =>
          ret (None,
               Some (fmt_Errorf ("cannot decode json response: " +:+ Error_text err)))
      | None =>
          ret (Some {| api.ServerID := ServerID resp;
                       api.Data := data;
                       api.Err := Error resp |},
               None)
      end
  end.
End HTTP.
End http.

(** ** Concrete collaborators

    Scripted collaborators, as a test of the step would set them up.  JSON
    text is written with apostrophes where the wire has double quotes. *)
Module scenario.
Import events bios_settings_set.

Definition swap_quote (c : ascii) : ascii :=
  if json.eqc c json.apostrophe then json.quote else c.

Fixpoint wire (s : string) : string :=
  match s with
  | EmptyString => EmptyString
  | String c s' => String (swap_quote c) (wire s')
  end.

Definition json_text (s : string) : list byte := bytes_of_string (wire s).

(** A reader that delivers [data] in one piece and then ends. *)
Definition reader_of (data : list byte) : Reader := [(data, None)].

(** A reader that fails with [e] after delivering [data]. *)
Definition broken_reader (data : list byte) (e : error) : Reader :=
  [(data, None); ([], Some e)].

(** A process that starts, writes the two streams and exits with [wait]. *)
Definition process (stdout stderr : list byte) (wait : option error) : Process :=
  {| StdoutPipe := inr (reader_of stdout);
     StderrPipe := inr (reader_of stderr);
     Start := None;
     Wait := wait |}.

Definition transport_of (proc : Process) : Transport :=
  {| NewProcess := fun _ _ => inr proc |}.

(** A transport that cannot reach the host. *)
Definition unreachable : Transport :=
  {| NewProcess := fun _ _ => inl (errors_New "connection refused") |}.

(** A framework whose expansion leaves the parameters as they are and
    which hands out [transport]; targets are named by strings. *)
Definition framework (transport : Transport) : Framework (Target := string) :=
  {| Target_String := fun t => t;
     ExpandObject := fun _ p => (p, None);
     NewTransport := fun _ _ => inr transport |}.

Definition accepting : Emitter string := {| Emit := fun _ => None |}.

Definition rejecting (e : error) : Emitter string := {| Emit := fun _ => Some e |}.

Definition params (password keyPath option_ value : string) (shallFail : bool)
  : inputStepParams :=
  {| Transport_ := {| Proto := "ssh"; Options_ := [] |};
     Parameter_ := {| ToolPath := "/usr/bin/tool"; Password := password;
                      KeyPath := keyPath; Option_ := option_; Value := value;
                      ShallFail := shallFail |};
     Options := {| Timeout := 0 |} |}.

Definition runner (p : inputStepParams) (ev : Emitter string) : TargetRunner :=
  NewTargetRunner {| inputStepParams_ := p |} ev.

(** [Run] with the decoder and encoder of encoding/json. *)
Definition run_on (transport : Transport) (p : inputStepParams) (ev : Emitter string)
  : M (call string) (option error) :=
  Run (Error_JSON := Unmarshal_Error) (eventPayload_Marshaler := Marshal_eventPayload)
      (framework transport) (runner p ev) "dut01".

Definition run (proc : Process) (p : inputStepParams) (ev : Emitter string)
  : M (call string) (option error) :=
  run_on (transport_of proc) p ev.
End scenario.

(** Concrete collaborators of the HTTP client. *)
Module http_scenario.
Import url http scenario.

Definition isLetter (c : ascii) : bool := json.between 97 122 c || json.between 65 90 c.

Definition toLower (c : ascii) : ascii :=
  if json.between 65 90 c then json.chr (json.code c + 32) else c.

Inductive scheme_result : Type :=
| NoScheme
| MissingScheme
| Scheme_ (scheme remainder : string).

Definition prepend (c : ascii) (r : scheme_result) : scheme_result :=
  match r with
  | Scheme_ s remainder => Scheme_ (String c s) remainder
  | other => other
  end.

(** [getScheme] of net/url: the scheme is a letter followed by letters,
    digits, [+], [-] and [.], up to the first colon. *)
Fixpoint getScheme (i : nat) (rawURL : string) : scheme_result :=
  match rawURL with
  | EmptyString => NoScheme
  | String c s =>
      if isLetter c then prepend c (getScheme (S i) s)
      else if json.isDigit c || json.eqc c "+" || json.eqc c "-" || json.eqc c "." then
        if (i =? 0)%nat then NoScheme else prepend c (getScheme (S i) s)
      else if json.eqc c ":" then
        if (i =? 0)%nat then MissingScheme else Scheme_ EmptyString s
      else NoScheme
  end.

Fixpoint lower (s : string) : string :=
  match s with
  | EmptyString => EmptyString
  | String c s' => String (toLower c) (lower s')
  end.

(** A stand-in for [url.Parse]: it takes the scheme off as [getScheme]
    does and keeps the remainder as it is. *)
Definition url_Parse (rawURL : string) : error + URL :=
  match getScheme 0 rawURL with
  | MissingScheme =>
      inl (errors_New ("parse " +:+ json.encode_string rawURL
                         +:+ ": missing protocol scheme"))
  | NoScheme => inr {| Scheme := ""; Path := rawURL; rest := "" |}
  | Scheme_ s remainder => inr {| Scheme := lower s; Path := ""; rest := remainder |}
  end.

Definition URL_String (u : URL) : string :=
  if String.eqb (Scheme u) "" then rest u +:+ Path u
  else Scheme u +:+ ":" +:+ rest u +:+ Path u.

(** A server that answers every request with [status] and [body]. *)
Definition server (status : Z) (body : list byte) : string -> Values -> error + Response :=
  fun _ _ => inr {| Status := Itoa status; StatusCode := status; Body := reader_of body |}.

(** A stand-in for the [UnmarshalJSON] method of xjson.Error: the error travels as
    the JSON string of its text. *)
Definition xjson_UnmarshalJSON (b : list byte) (e : xjson.Error)
  : xjson.Error * option error :=
  match json.parse b with
  | inr (json.JString s) => (xjson.NewError (errors_New s), None)
  | inr _ => (e, Some (json_UnmarshalTypeError "value" "string" "" ""))
  | inl err => (e, Some err)
  end.

(** Typed data whose decoder refuses every input. *)
Definition undecodable : api.ResponseData (list byte) :=
  {| api.zero := [];
     api.ResponseData_JSON := fun _ d => (d, Some (errors_New "decoder called")) |}.

Definition job_State_String (s : nat) : string := "state".
End http_scenario.

(** ** main.go, package hsi *)
Module hsi.

(** Name is the name used to look this plugin up. *)
Definition Name : string := "HSI".

(** Modelled from the spec: transport.Parameters is not among the sources;
    it is the tagged configuration that selects a protocol ([proto]) and
    carries its protocol-specific [options]. *)
Record Parameters : Type := {
  Proto : string;
  Options : list byte }.

(** TestStep implementation for this teststep plugin *)
Record TestStep : Type := {
  transport : Parameters }.

(** The fields of [Parameters] as the decoder sees them. *)
Definition Parameters_fields : list (json.field Parameters) :=
  [ json.string_field "proto" (fun s p => {| Proto := s; Options := Options p |});
    json.RawMessage_field "options" (fun o p => {| Proto := Proto p; Options := o |}) ].

(** [json.Unmarshal] at [Parameters]. *)
Definition Unmarshal_Parameters : json.JSON Parameters :=
  json.Unmarshal_struct "Parameters" "transport.Parameters" Parameters_fields.

Section TestStep.
(** What pkg/test provides: the parameters of a step, [GetOne] on them, and
    the methods [IsEmpty] and [JSON] of a parameter; and the keyword of the
    transport parameter. *)
Context {TestStepParameters Param : Type}.
Variable GetOne : TestStepParameters -> string -> Param.
Variable IsEmpty : Param -> bool.
Variable JSON : Param -> list byte.
Variable transport_Keyword : string.
Context {Parameters_JSON : json.JSON Parameters}.

(** The result is the step as [populateParams] leaves it, and the error. *)
Definition populateParams (ts : TestStep) (stepParams : TestStepParameters)
  : TestStep * option error :=
  let transportParams := GetOne stepParams transport_Keyword in
  if IsEmpty transportParams then
    (ts, Some (fmt_Errorf "transport cannot be empty"))
  else
    let (t, err) := json.Unmarshal (JSON transportParams) (transport ts) in
    let ts := {| transport := t |} in
    match err with
    | Some err =>
        (ts, Some (fmt_Errorf ("failed to deserialize transport: " +:+ Error_text err)))
    | None => (ts, None)
    end.

(** ValidateParameters validates the parameters associated to the TestStep *)
Definition ValidateParameters (ts : TestStep) (params : TestStepParameters)
  : TestStep * option error :=
  populateParams ts params.
End TestStep.

(** New initializes and returns a new test step. *)
Definition New : TestStep := {| transport := {| Proto := ""; Options := [] |} |}.

(** Load returns the name, factory and events which are needed to register
    the step.  The events are the list [Events] of pkg/events, which is
    not among the sources. *)
Definition Load (events_Events : list string) : string * TestStep * list string :=
  (Name, New, events_Events).

(** Name returns the name of the Step *)
Definition TestStep_Name (ts : TestStep) : string := Name.
End hsi.

(** ** events.go: the report writers

    A [strings.Builder] is the text written to it so far; [WriteString]
    appends. *)
Module report.
Definition nl : string := String "010" EmptyString.

(** strings.Join *)
Definition Join (elems : list string) (sep : string) : string := String.concat sep elems.

(** Function to format command information and append it to a string
    builder. *)
Definition writeCommand (builder : string) (command : string) (args : list string)
  : string :=
  let builder := builder +:+ "Operation on DUT:" +:+ nl in
  let builder := builder +:+ (command +:+ " " +:+ Join args " ") in
  let builder := builder +:+ nl +:+ nl in
  builder +:+ "Output:" +:+ nl.

(** Function to format command output information and append it to a
    string builder. *)
Definition writeCommandOutput (builder : string) (stdout : string) : string :=
  let builder := builder +:+ stdout in
  builder +:+ nl.
End report.

(** ** Notions used in the statements *)

(** The shape that the specification names for the error report of the
    remote tool: a JSON object with a member [error] whose value is a
    string. *)
Definition is_structured_error (stderr : list byte) : bool :=
  match json.parse stderr with
  | inr (json.JObject members) =>
      existsb (fun m => match m with
                        | (key, _, json.JString _) => String.eqb key "error"
                        | _ => false
                        end) members
  | _ => false
  end.

(** What a stream holds up to its end or to its first failing read. *)
Fixpoint content (r : Reader) : list byte :=
  match r with
  | [] => []
  | (bs, None) :: rest => bs ++ content rest
  | (bs, Some _) :: _ => bs
  end.

(** The error, other than the end of the stream, that stops the reading. *)
Fixpoint read_error (r : Reader) : option error :=
  match r with
  | [] => None
  | (_, None) :: rest => read_error rest
  | (_, Some e) :: _ => if is_EOF e then None else Some e
  end.

(** What [readBuffer] hands over: everything when the stream ends, nothing
    when a read fails. *)
Definition delivered (r : Reader) : list byte :=
  match read_error r with
  | Some _ => []
  | None => content r
  end.

(** The line printed for a failed read of the stream called [name]. *)
Definition read_log {Target : Type} (name : string) (r : Reader) : list (call Target) :=
  match read_error r with
  | Some e => [Printf_call ("failed to read from " +:+ name +:+ " buffer: "
                              +:+ Error_text e +:+ String "010" EmptyString)]
  | None => []
  end.

Import events bios_settings_set.

(** The preconditions that [Run] checks on the expanded parameters. *)
Definition preconditions (params : inputStepParams) : bool :=
  String.eqb (Proto (Transport_ params)) supportedProto
  && negb (String.eqb (Password (Parameter_ params)) ""
           && String.eqb (KeyPath (Parameter_ params)) "")
  && negb (String.eqb (Option_ (Parameter_ params)) ""
           || String.eqb (Value (Parameter_ params)) "").

(** The error that [Run] returns for parameters that fail them. *)
Definition precondition_error (params : inputStepParams) : error :=
  if negb (String.eqb (Proto (Transport_ params)) supportedProto) then
    fmt_Errorf ("only " +:+ String json.quote supportedProto
                  +:+ String json.quote " is supported as protocol in this teststep")
  else if String.eqb (Password (Parameter_ params)) ""
          && String.eqb (KeyPath (Parameter_ params)) "" then
    fmt_Errorf "password or certificate file must be set"
  else fmt_Errorf "bios option and value must be set".

(** The error of a launch that fails: the process cannot be constructed or
    one of its pipes cannot be obtained. *)
Definition launch_error (transport : Transport) (params : inputStepParams)
  : option error :=
  match NewProcess transport privileged (argv params) with
  | inl err => Some (fmt_Errorf ("failed to create process: " +:+ Error_text err))
  | inr proc =>
      match StdoutPipe proc with
      | inl err => Some (fmt_Errorf ("failed to pipe stdout: " +:+ Error_text err))
      | inr _ =>
          match StderrPipe proc with
          | inl err => Some (fmt_Errorf ("failed to pipe stderr: " +:+ Error_text err))
          | inr _ => None
          end
      end
  end.

(** What [Start] and, after a successful start, [Wait] report. *)
Definition execution_outcome (proc : Process) : option error :=
  match Start proc with
  | None => Wait proc
  | Some e => Some e
  end.

(** The calls up to the end of the draining of a launched process. *)
Definition launch_trace {Target : Type} (params : inputStepParams) (proc : Process)
    (out err : Reader) : list (call Target) :=
  [NewProcess_call privileged (argv params); StdoutPipe_call; StderrPipe_call; Start_call]
    ++ match Start proc with None => [Wait_call] | Some _ => [] end
    ++ read_log "Stdout" out ++ read_log "Stderr" err.

(** What [runSet] does after the captured stderr has been parsed without
    error: the two events, stdout first. *)
Definition emit_both {Target : Type} {eventPayload_Marshaler : json.Marshaler eventPayload}
    (r : TargetRunner) (target : Target) (stdout stderr : list byte)
    (outcome : option error) : M (call Target) (option error * option error) :=
  let e1 := emitEvent EventStdout {| events.Msg := string_of_bytes stdout |} target (ev r) in
  match fst e1 with
  | Some err =>
      ((None, Some (fmt_Errorf ("cannot emit event: " +:+ Error_text err))), snd e1)
  | None =>
      let e2 := emitEvent EventStderr {| events.Msg := string_of_bytes stderr |}
                          target (ev r) in
      match fst e2 with
      | Some err =>
          ((None, Some (fmt_Errorf ("cannot emit event: " +:+ Error_text err))),
           snd e1 ++ snd e2)
      | None => ((outcome, None), snd e1 ++ snd e2)
      end
  end.


(** [errors.Unwrap]: only an error built with the wrapping verb has a
    cause. *)
Definition errors_Unwrap (e : error) : option error :=
  match e with
  | fmt_wrapError _ err => Some err
  | _ => None
  end.

(** What a call of a run can be, given the target and the expanded
    parameters: the log line and the timeout scope aside, the expansion,
    the construction of the transport for the expanded protocol, the
    process under the privilege wrapper with the arguments of [argv], its
    pipes and lifecycle, a printed line, and an event with a registered
    name for the target. *)
Definition body_call {Target : Type} (target : Target) (params : inputStepParams)
    (c : call Target) : Prop :=
  match c with
  | ExpandObject_call => True
  | NewTransport_call proto options =>
      preconditions params = true
      /\ proto = Proto (Transport_ params) /\ options = Options_ (Transport_ params)
  | NewProcess_call bin args =>
      preconditions params = true /\ bin = privileged /\ args = argv params
  | StdoutPipe_call | StderrPipe_call | Start_call | Wait_call | Printf_call _ =>
      preconditions params = true
  | Emit_call d _ =>
      preconditions params = true /\ In (EventName d) Events /\ Target_ d = target
  | Infof_call _ | WithTimeout_call _ | cancel_call => False
  end.

(** The form that [request] posts: the caller's values with the requestor
    set. *)
Definition posted_form (requestor : string) (params : url.Values) : url.Values :=
  url.Set_ params "requestor" requestor.

(** The address that [request] posts to: the parsed base address with the
    verb appended to its path. *)
Definition verb_url (u : url.URL) (verb : string) : url.URL :=
  {| url.Scheme := url.Scheme u;
     url.Path := url.Path u +:+ "/" +:+ verb;
     url.rest := url.rest u |}.

(** Whether a verb method returned exactly one of a response and an
    error. *)
Definition one_result {A : Type} (res : option A * option error) : Prop :=
  match res with
  | (Some _, None) | (None, Some _) => True
  | _ => False
  end.

(** The events handed to the emitter, accepted or not, in order. *)
Definition attempted {Target : Type} (t : list (call Target)) : list (Data Target) :=
  omap (fun c => match c with Emit_call d _ => Some d | _ => None end) t.

(** The events of a run, as [runSet] builds them. *)
Definition stdout_event {Target : Type} (target : Target) (payload : list byte)
  : Data Target :=
  {| EventName := EventStdout; Target_ := target; Payload := payload |}.

Definition stderr_event {Target : Type} (target : Target) (payload : list byte)
  : Data Target :=
  {| EventName := EventStderr; Target_ := target; Payload := payload |}.

(** How the emission of the two events can go, with the results of
    [runSet] and the calls made: a payload cannot be encoded, the emitter
    refuses an event, or both events are accepted and the outcome of the
    execution is returned. *)
Inductive emission {Target : Type} (target : Target) (outcome : option error)
  : option error * option error -> list (call Target) -> Prop :=
| unencodable_stdout (e : error) :
    emission target outcome (None, Some e) []
| refused_stdout (e x : error) (p1 : list byte) :
    emission target outcome (None, Some e) [Emit_call (stdout_event target p1) (Some x)]
| unencodable_stderr (e : error) (p1 : list byte) :
    emission target outcome (None, Some e) [Emit_call (stdout_event target p1) None]
| refused_stderr (e x : error) (p1 p2 : list byte) :
    emission target outcome (None, Some e)
             [Emit_call (stdout_event target p1) None;
              Emit_call (stderr_event target p2) (Some x)]
| both_emitted (p1 p2 : list byte) :
    emission target outcome (outcome, None)
             [Emit_call (stdout_event target p1) None;
              Emit_call (stderr_event target p2) None].

(** How far a run gets towards a started process: the expanded parameters,
    the transport, the process and its two pipes, when the parameters
    expand and pass the preconditions, the transport and the process are
    constructed and both pipes are obtained. *)
Definition launched {Target : Type} (fw : Framework (Target := Target))
    (r : TargetRunner (Target := Target)) (target : Target)
  : option (inputStepParams * Transport * Process * Reader * Reader) :=
  match ExpandObject fw target (inputStepParams_ (ts r)) with
  | (_, Some _) => None
  | (params, None) =>
      if preconditions params then
        match NewTransport fw (Proto (Transport_ params)) (Options_ (Transport_ params)) with
        | inl _ => None
        | inr transport =>
            match NewProcess transport privileged (argv params) with
            | inl _ => None
            | inr proc =>
                match StdoutPipe proc, StderrPipe proc with
                | inr out, inr err => Some (params, transport, proc, out, err)
                | _, _ => None
                end
            end
        end
      else None
  end.

(** * Properties *)

(** ** parseSetOutput *)

Section parseSetOutput_properties.
Context {Error_JSON : json.JSON Error}.

Lemma parseSetOutput_empty (fail : bool) : parseSetOutput [] fail = None.
Proof. reflexivity. Qed.

(** On a non-empty input the result is decided by what the decoder
    returns. *)
Lemma parseSetOutput_unfold (stderr : list byte) (fail : bool) :
  stderr <> [] ->
  parseSetOutput stderr fail =
    match json.Unmarshal stderr {| Msg := "" |} with
    | (_, Some e) => Some (fmt_Errorf ("failed to unmarshal stderr: " +:+ Error_text e))
    | (err, None) =>
        if String.eqb (Msg err) "" then None
        else if String.eqb (Msg err) "BIOS options are locked, needs unlocking." && fail
             then None
             else Some (fmt_Errorf (Msg err))
    end.
Proof.
  intros Hne. unfold parseSetOutput.
  destruct stderr as [|b stderr]; [congruence|]. cbn [length Nat.eqb negb].
  destruct (json.Unmarshal (b :: stderr) {| Msg := "" |}) as [err [e|]]; [reflexivity|].
  destruct (String.eqb (Msg err) ""); reflexivity.
Qed.

(** C2: for a non-empty stderr that decodes to a structured error with a
    non-empty message [m]: when [m] is exactly the locked-options message
    and the tolerate-flag is set, [parseSetOutput] returns nil; for any
    other message, or with the flag unset, it returns an error whose text
    is exactly [m]. *)
Theorem parseSetOutput_message (stderr : list byte) (fail : bool) (m : string) :
  stderr <> [] ->
  json.Unmarshal stderr {| Msg := "" |} = ({| Msg := m |}, None) ->
  m <> "" ->
  (m = "BIOS options are locked, needs unlocking." -> fail = true ->
   parseSetOutput stderr fail = None)
  /\ (m <> "BIOS options are locked, needs unlocking." \/ fail = false ->
      exists e, parseSetOutput stderr fail = Some e /\ Error_text e = m).
Proof.
  intros Hne Hdec Hm.
  rewrite (parseSetOutput_unfold stderr fail Hne), Hdec. cbn [Msg].
  apply String.eqb_neq in Hm. rewrite Hm.
  split.
  - intros -> ->. reflexivity.
  - intros Hother.
    assert (String.eqb m "BIOS options are locked, needs unlocking." && fail = false)
      as ->.
    { destruct Hother as [Hneq | ->].
      - apply String.eqb_neq in Hneq. rewrite Hneq. reflexivity.
      - apply andb_false_r. }
    exists (fmt_Errorf m). split; reflexivity.
Qed.

(** C7, as the code has it: whenever the decoder reports an error on a
    non-empty stderr, [parseSetOutput] returns the decode error, for
    either value of the tolerate-flag. *)
Theorem parseSetOutput_decode_error
    (stderr : list byte) (fail : bool) (partial : Error) (e : error) :
  stderr <> [] ->
  json.Unmarshal stderr {| Msg := "" |} = (partial, Some e) ->
  parseSetOutput stderr fail
  = Some (errors_New ("failed to unmarshal stderr: " +:+ Error_text e)).
Proof.
  intros Hne Hdec.
  rewrite (parseSetOutput_unfold stderr fail Hne), Hdec. reflexivity.
Qed.

End parseSetOutput_properties.

(** The decoder of encoding/json reports every syntax error, and every
    top-level value that is neither an object nor [null]. *)
Lemma Unmarshal_Error_syntax (stderr : list byte) (dst : Error) (e : error) :
  json.parse stderr = inl e -> Unmarshal_Error stderr dst = (dst, Some e).
Proof.
  intros H. unfold Unmarshal_Error, json.Unmarshal_struct. rewrite H. reflexivity.
Qed.

Lemma Unmarshal_Error_not_object (stderr : list byte) (dst : Error) (v : json.value) :
  json.parse stderr = inr v ->
  match v with json.JNull | json.JObject _ => False | _ => True end ->
  exists e, Unmarshal_Error stderr dst = (dst, Some e).
Proof.
  intros H Hv. unfold Unmarshal_Error, json.Unmarshal_struct. rewrite H.
  destruct v; try contradiction; eexists; reflexivity.
Qed.

Lemma parseSetOutput_message_witness :
  let stderr := scenario.json_text "{'error':'BIOS options are locked, needs unlocking.'}" in
  stderr <> []
  /\ parseSetOutput (Error_JSON := Unmarshal_Error) stderr true = None
  /\ exists e, parseSetOutput (Error_JSON := Unmarshal_Error) stderr false = Some e
                /\ Error_text e = "BIOS options are locked, needs unlocking.".
Proof.
  intros stderr.
  assert (Hne : stderr <> []) by (vm_compute; discriminate).
  assert (Hdec : json.Unmarshal (JSON := Unmarshal_Error) stderr {| Msg := "" |}
                 = ({| Msg := "BIOS options are locked, needs unlocking." |}, None))
    by (vm_compute; reflexivity).
  assert (Hm : "BIOS options are locked, needs unlocking." <> "") by discriminate.
  split; [exact Hne|]. split.
  - exact (proj1 (parseSetOutput_message stderr true _ Hne Hdec Hm) eq_refl eq_refl).
  - exact (proj2 (parseSetOutput_message stderr false _ Hne Hdec Hm) (or_intror eq_refl)).
Defined.

Lemma parseSetOutput_decode_error_witness :
  let stderr := bytes_of_string "segmentation fault" in
  stderr <> []
  /\ parseSetOutput (Error_JSON := Unmarshal_Error) stderr false
     = Some (errors_New ("failed to unmarshal stderr: "
                           +:+ "invalid character 's' looking for beginning of value")).
Proof.
  intros stderr.
  assert (Hne : stderr <> []) by (vm_compute; discriminate).
  split; [exact Hne|].
  refine (parseSetOutput_decode_error stderr false {| Msg := "" |}
            (json_SyntaxError "invalid character 's' looking for beginning of value" 1)
            Hne _).
  vm_compute; reflexivity.
Defined.

(** C7, as stated, fails: a non-empty stderr that is valid JSON but not of
    the shape [{"error": string}] is accepted without any error, whatever
    the tolerate-flag. *)
Lemma parseSetOutput_other_shape_accepted :
  let stderr := scenario.json_text "{'message':'boom'}" in
  stderr <> []
  /\ is_structured_error stderr = false
  /\ forall fail, parseSetOutput (Error_JSON := Unmarshal_Error) stderr fail = None.
Proof.
  intros stderr. split; [vm_compute; discriminate|].
  split; [vm_compute; reflexivity|].
  intros [|]; vm_compute; reflexivity.
Qed.

(** More inputs of another shape that are accepted: the empty object,
    [null], and an [error] member that is [null]. *)
Example parseSetOutput_accepts_empty_object :
  parseSetOutput (Error_JSON := Unmarshal_Error) (scenario.json_text "{}") false = None.
Proof. vm_compute; reflexivity. Qed.

Example parseSetOutput_accepts_null :
  parseSetOutput (Error_JSON := Unmarshal_Error) (scenario.json_text "null") false = None.
Proof. vm_compute; reflexivity. Qed.

Example parseSetOutput_accepts_null_member :
  parseSetOutput (Error_JSON := Unmarshal_Error) (scenario.json_text "{'error':null}") false
  = None.
Proof. vm_compute; reflexivity. Qed.

(** A member of the wrong type is a decode error. *)
Example parseSetOutput_rejects_number_member :
  parseSetOutput (Error_JSON := Unmarshal_Error) (scenario.json_text "{'error':5}") true
  = Some (errors_New
            ("failed to unmarshal stderr: json: cannot unmarshal number "
               +:+ "into Go struct field Error.error of type string")).
Proof. vm_compute; reflexivity. Qed.

(** ** Draining the streams *)

Lemma io_Copy_content (r : Reader) (buf : list byte) :
  io_Copy buf r = (buf ++ content r, read_error r).
Proof.
  revert buf. induction r as [|[bs [e|]] rest IH]; intros buf; cbn [io_Copy content read_error].
  - rewrite app_nil_r. reflexivity.
  - reflexivity.
  - rewrite IH, <- app_assoc. reflexivity.
Qed.

Lemma read_error_not_EOF (r : Reader) (e : error) :
  read_error r = Some e -> is_EOF e = false.
Proof.
  induction r as [|[bs [e'|]] rest IH]; cbn [read_error]; intros H.
  - discriminate.
  - destruct (is_EOF e') eqn:E; [discriminate|]. injection H as <-. exact E.
  - auto.
Qed.

Lemma readBuffer_delivered (r : Reader) :
  readBuffer r = (delivered r, read_error r).
Proof.
  unfold readBuffer, delivered. rewrite io_Copy_content. cbn [app].
  destruct (read_error r) as [e|] eqn:E; [|reflexivity].
  rewrite (read_error_not_EOF r e E). reflexivity.
Qed.

(** [getOutputFromReader] as a function of the two streams. *)
Lemma getOutputFromReader_result {Target : Type} (stdout stderr : Reader) :
  getOutputFromReader (Target := Target) stdout stderr
  = ((delivered stdout, delivered stderr),
     read_log "Stdout" stdout ++ read_log "Stderr" stderr).
Proof.
  unfold getOutputFromReader, read_log.
  rewrite !readBuffer_delivered.
  destruct (read_error stdout) as [e1|]; destruct (read_error stderr) as [e2|];
    reflexivity.
Qed.

(** C8: [getOutputFromReader] reads each stream into a buffer of its own and
    always returns the two byte slices.  A stream that ends is returned
    whole, up to its end.  A read error on a stream is printed and goes no
    further: the slice of that stream is empty, the other stream is read all
    the same, and the caller receives no error. *)
Theorem getOutputFromReader_drains {Target : Type} (stdout stderr : Reader) :
  let result := getOutputFromReader (Target := Target) stdout stderr in
  fst (fst result) = match read_error stdout with
                     | None => content stdout
                     | Some _ => []
                     end
  /\ snd (fst result) = match read_error stderr with
                        | None => content stderr
                        | Some _ => []
                        end
  /\ snd result = read_log "Stdout" stdout ++ read_log "Stderr" stderr.
Proof.
  intros result. unfold result. rewrite getOutputFromReader_result.
  cbn [fst snd]. unfold delivered. repeat split.
Qed.

(** A stream that ends is handed over whole. *)
Lemma delivered_whole (r : Reader) : read_error r = None -> delivered r = content r.
Proof. unfold delivered. intros ->. reflexivity. Qed.

(** ** The run of a target *)

Section Run_properties.
Context {Target : Type}.
Context {Error_JSON : json.JSON Error} {eventPayload_Marshaler : json.Marshaler eventPayload}.
Implicit Types (fw : Framework (Target := Target)) (r : TargetRunner (Target := Target)).
Implicit Types (target : Target) (transport : Transport) (params : inputStepParams).

Lemma runSet_launch_failed r target transport params (e : error) :
  launch_error transport params = Some e ->
  exists t, runSet r target transport params = ((None, Some e), t)
            /\ emitted t = [] /\ ~ In Start_call t.
Proof.
  unfold launch_error, runSet. intros H.
  destruct (NewProcess transport privileged (argv params)) as [e0|proc].
  { injection H as <-. eexists. split; [reflexivity|]. split; [reflexivity|].
    cbn. intros [?|[]]; discriminate. }
  destruct (StdoutPipe proc) as [e0|out].
  { injection H as <-. eexists. split; [reflexivity|]. split; [reflexivity|].
    cbn. intros [?|[?|[]]]; discriminate. }
  destruct (StderrPipe proc) as [e0|err]; [|discriminate].
  injection H as <-. eexists. split; [reflexivity|]. split; [reflexivity|].
  cbn. intros [?|[?|[?|[]]]]; discriminate.
Qed.

Lemma runSet_launched r target transport params (proc : Process) (out err : Reader) :
  NewProcess transport privileged (argv params) = inr proc ->
  StdoutPipe proc = inr out ->
  StderrPipe proc = inr err ->
  runSet r target transport params
  = match parseSetOutput (delivered err) (ShallFail (Parameter_ params)) with
    | Some e => ((None, Some e), launch_trace params proc out err)
    | None =>
        let res := emit_both r target (delivered out) (delivered err)
                             (execution_outcome proc) in
        (fst res, launch_trace params proc out err ++ snd res)
    end.
Proof.
  intros Hproc Hout Herr. unfold runSet, launch_trace, emit_both, execution_outcome.
  rewrite Hproc, Hout, Herr, getOutputFromReader_result.
  unfold bind, does, ret. cbn [fst snd].
  destruct (parseSetOutput (delivered err) (ShallFail (Parameter_ params))) as [e|].
  { destruct (Start proc) as [e0|]; cbn; rewrite ?app_nil_r; reflexivity. }
  destruct (emitEvent EventStdout _ target (ev r)) as [[e1|] t1].
  { destruct (Start proc) as [e0|]; cbn; rewrite ?app_nil_r, <- ?app_assoc;
      reflexivity. }
  destruct (emitEvent EventStderr _ target (ev r)) as [[e2|] t2];
    destruct (Start proc) as [e0|]; cbn;
    rewrite ?app_nil_r, <- ?app_assoc; reflexivity.
Qed.

(** [Run] is its body between the log line and, under a timeout, the
    scope of the derived context. *)
Lemma Run_unfold fw r target :
  let timeout := Timeout (Options (inputStepParams_ (ts r))) in
  Run fw r target
  = (fst (Run_body fw r target),
     Infof_call ("Executing on target " +:+ Target_String fw target)
       :: (if (timeout =? 0)%Z then [] else [WithTimeout_call timeout])
       ++ snd (Run_body fw r target)
       ++ (if (timeout =? 0)%Z then [] else [cancel_call])).
Proof.
  intros timeout. unfold Run. fold timeout.
  destruct (Run_body fw r target) as [res t].
  destruct (timeout =? 0)%Z; unfold bind, does, ret; cbn;
    rewrite ?app_nil_r; reflexivity.
Qed.

Lemma Run_result fw r target : fst (Run fw r target) = fst (Run_body fw r target).
Proof. rewrite Run_unfold. reflexivity. Qed.

Lemma Run_emitted fw r target :
  emitted (snd (Run fw r target)) = emitted (snd (Run_body fw r target)).
Proof.
  rewrite Run_unfold. cbn [snd]. unfold emitted. cbn [omap list_omap].
  rewrite !omap_app.
  destruct (Timeout (Options (inputStepParams_ (ts r))) =? 0)%Z; cbn;
    rewrite ?app_nil_r; reflexivity.
Qed.

Lemma Run_calls fw r target (c : call Target) :
  In c (snd (Run_body fw r target)) -> In c (snd (Run fw r target)).
Proof.
  intros H. rewrite Run_unfold. cbn [snd]. right.
  apply in_or_app. right. apply in_or_app. left. exact H.
Qed.

Lemma Run_remote_calls fw r target (c : call Target) :
  In c (snd (Run fw r target)) -> is_remote c = true ->
  In c (snd (Run_body fw r target)).
Proof.
  rewrite Run_unfold. cbn [snd]. intros [<-|H] Hc; [discriminate|].
  apply in_app_or in H as [H|H].
  { destruct (_ =? 0)%Z; [destruct H|]. destruct H as [<-|[]]. discriminate. }
  apply in_app_or in H as [H|H]; [exact H|].
  destruct (_ =? 0)%Z; [destruct H|]. destruct H as [<-|[]]. discriminate.
Qed.

(** Parameters that fail the preconditions end the run before anything
    else is called. *)
Lemma Run_body_rejected fw r target params :
  ExpandObject fw target (inputStepParams_ (ts r)) = (params, None) ->
  preconditions params = false ->
  Run_body fw r target = (Some (precondition_error params), [ExpandObject_call]).
Proof.
  intros Hexp Hpre. unfold Run_body, preconditions, precondition_error in *.
  rewrite Hexp.
  destruct (String.eqb (Proto (Transport_ params)) supportedProto); cbn [negb];
    [|reflexivity].
  destruct (String.eqb (Password (Parameter_ params)) ""
            && String.eqb (KeyPath (Parameter_ params)) ""); [reflexivity|].
  destruct (String.eqb (Option_ (Parameter_ params)) ""
            || String.eqb (Value (Parameter_ params)) ""); [reflexivity|].
  discriminate.
Qed.

(** Parameters that pass them lead to [runSet], whose two results [Run]
    merges into its one. *)
Lemma Run_body_runSet fw r target params transport :
  ExpandObject fw target (inputStepParams_ (ts r)) = (params, None) ->
  preconditions params = true ->
  NewTransport fw (Proto (Transport_ params)) (Options_ (Transport_ params))
  = inr transport ->
  let set := runSet r target transport params in
  Run_body fw r target
  = (match snd (fst set) with
     | Some err => Some err
     | None => fst (fst set)
     end,
     [ExpandObject_call;
      NewTransport_call (Proto (Transport_ params)) (Options_ (Transport_ params))]
       ++ snd set).
Proof.
  intros Hexp Hpre Htr set. unfold Run_body, preconditions in *.
  rewrite Hexp.
  destruct (String.eqb (Proto (Transport_ params)) supportedProto); [|discriminate].
  destruct (String.eqb (Password (Parameter_ params)) ""
            && String.eqb (KeyPath (Parameter_ params)) ""); [discriminate|].
  destruct (String.eqb (Option_ (Parameter_ params)) ""
            || String.eqb (Value (Parameter_ params)) ""); [discriminate|].
  cbn [negb]. rewrite Htr. fold set.
  destruct set as [[outcome [err|]] t]; unfold bind, does, ret; cbn;
    rewrite ?app_nil_r; reflexivity.
Qed.

Lemma launch_error_None transport params :
  launch_error transport params = None ->
  exists proc out err,
    NewProcess transport privileged (argv params) = inr proc
    /\ StdoutPipe proc = inr out /\ StderrPipe proc = inr err.
Proof.
  unfold launch_error. intros H.
  destruct (NewProcess transport privileged (argv params)) as [?|proc]; [discriminate|].
  destruct (StdoutPipe proc) as [?|out] eqn:Hout; [discriminate|].
  destruct (StderrPipe proc) as [?|err] eqn:Herr; [discriminate|].
  exists proc, out, err. auto.
Qed.

Lemma emit_both_one r target (stdout stderr : list byte) (outcome : option error) :
  fst (fst (emit_both r target stdout stderr outcome)) = None
  \/ snd (fst (emit_both r target stdout stderr outcome)) = None.
Proof.
  unfold emit_both.
  destruct (fst (emitEvent EventStdout _ target (ev r))); [left; reflexivity|].
  destruct (fst (emitEvent EventStderr _ target (ev r))); [left|right]; reflexivity.
Qed.

Lemma In_launch_trace params (proc : Process) (out err : Reader) :
  In Start_call (launch_trace (Target := Target) params proc out err).
Proof. unfold launch_trace. cbn. auto. Qed.

Lemma emitted_launch_trace params (proc : Process) (out err : Reader) :
  emitted (launch_trace (Target := Target) params proc out err) = [].
Proof.
  unfold launch_trace, emitted, read_log. rewrite !omap_app.
  destruct (Start proc); destruct (read_error out); destruct (read_error err);
    reflexivity.
Qed.

(** [runSet] never returns both an outcome and an error. *)
Lemma runSet_one r target transport params :
  fst (fst (runSet r target transport params)) = None
  \/ snd (fst (runSet r target transport params)) = None.
Proof.
  destruct (launch_error transport params) as [e|] eqn:E.
  - destruct (runSet_launch_failed r target transport params e E) as (t & -> & _).
    left. reflexivity.
  - destruct (launch_error_None transport params E) as (proc & out & err & H1 & H2 & H3).
    rewrite (runSet_launched r target transport params proc out err H1 H2 H3).
    destruct (parseSetOutput _ _); [left; reflexivity|].
    cbn [fst]. apply emit_both_one.
Qed.

(** A failed read of stderr does not end the run: the parser is given an
    empty stderr, finds nothing, and the run goes on to the events. *)
Lemma runSet_read_error_not_fatal r target transport params
    (proc : Process) (out err : Reader) (e : error) :
  NewProcess transport privileged (argv params) = inr proc ->
  StdoutPipe proc = inr out ->
  StderrPipe proc = inr err ->
  read_error err = Some e ->
  fst (runSet r target transport params)
  = fst (emit_both r target (delivered out) [] (execution_outcome proc)).
Proof.
  intros Hproc Hout Herr He.
  rewrite (runSet_launched r target transport params proc out err Hproc Hout Herr).
  unfold delivered at 1 3. rewrite He. reflexivity.
Qed.

Lemma Run_body_expand_error fw r target params (e : error) :
  ExpandObject fw target (inputStepParams_ (ts r)) = (params, Some e) ->
  Run_body fw r target = (Some e, [ExpandObject_call]).
Proof. intros H. unfold Run_body. rewrite H. reflexivity. Qed.

Lemma Run_body_transport_error fw r target params (e : error) :
  ExpandObject fw target (inputStepParams_ (ts r)) = (params, None) ->
  preconditions params = true ->
  NewTransport fw (Proto (Transport_ params)) (Options_ (Transport_ params)) = inl e ->
  Run_body fw r target
  = (Some (fmt_Errorf_w "failed to create transport: " e),
     [ExpandObject_call;
      NewTransport_call (Proto (Transport_ params)) (Options_ (Transport_ params))]).
Proof.
  intros Hexp Hpre Htr. unfold Run_body, preconditions in *. rewrite Hexp.
  destruct (String.eqb (Proto (Transport_ params)) supportedProto); [|discriminate].
  destruct (String.eqb (Password (Parameter_ params)) ""
            && String.eqb (KeyPath (Parameter_ params)) ""); [discriminate|].
  destruct (String.eqb (Option_ (Parameter_ params)) ""
            || String.eqb (Value (Parameter_ params)) ""); [discriminate|].
  cbn [negb]. rewrite Htr. reflexivity.
Qed.

(** Every run either starts the process, or returns an error without
    having emitted anything. *)
Lemma Run_started_or_failed fw r target :
  In Start_call (snd (Run fw r target))
  \/ ((exists e, fst (Run fw r target) = Some e) /\ emitted (snd (Run fw r target)) = []).
Proof.
  rewrite Run_result, Run_emitted.
  destruct (ExpandObject fw target (inputStepParams_ (ts r))) as [params [e|]] eqn:Hexp.
  { right. rewrite (Run_body_expand_error fw r target params e Hexp). eauto. }
  destruct (preconditions params) eqn:Hpre.
  2:{ right. rewrite (Run_body_rejected fw r target params Hexp Hpre). eauto. }
  destruct (NewTransport fw (Proto (Transport_ params)) (Options_ (Transport_ params)))
    as [e|transport] eqn:Htr.
  { right. rewrite (Run_body_transport_error fw r target params e Hexp Hpre Htr). eauto. }
  pose proof (Run_body_runSet fw r target params transport Hexp Hpre Htr) as Hbody.
  cbv zeta in Hbody.
  destruct (launch_error transport params) as [e|] eqn:E.
  - right. destruct (runSet_launch_failed r target transport params e E) as (t & Hset & Hem & _).
    rewrite Hbody, Hset. cbn [fst snd]. split; [eauto|exact Hem].
  - left. destruct (launch_error_None transport params E) as (proc & out & err & H1 & H2 & H3).
    apply Run_calls. rewrite Hbody. cbn [snd]. apply in_or_app. right.
    rewrite (runSet_launched r target transport params proc out err H1 H2 H3).
    destruct (parseSetOutput _ _); cbn [snd]; [apply In_launch_trace|].
    apply in_or_app. left. apply In_launch_trace.
Qed.

(** C1: in a run that reaches [runSet], the two results of [runSet] are
    never both set, and [Run] returns the one that is.  When the process
    cannot be constructed or a pipe cannot be obtained, that launch error
    is what [Run] returns, the process is never started and no event is
    emitted; otherwise the process is started and the run ends with one
    result. *)
Theorem Run_launch_or_result fw r target params transport :
  ExpandObject fw target (inputStepParams_ (ts r)) = (params, None) ->
  preconditions params = true ->
  NewTransport fw (Proto (Transport_ params)) (Options_ (Transport_ params))
  = inr transport ->
  let run := Run fw r target in
  let set := fst (runSet r target transport params) in
  (fst set = None \/ snd set = None)
  /\ fst run = match snd set with Some err => Some err | None => fst set end
  /\ match launch_error transport params with
     | Some e =>
         set = (None, Some e) /\ fst run = Some e
         /\ emitted (snd run) = [] /\ ~ In Start_call (snd run)
     | None => In Start_call (snd run)
     end.
Proof.
  intros Hexp Hpre Htr run set.
  pose proof (Run_body_runSet fw r target params transport Hexp Hpre Htr) as Hbody.
  cbv zeta in Hbody.
  assert (Hres : fst run = match snd set with Some err => Some err | None => fst set end).
  { unfold run. rewrite Run_result, Hbody. reflexivity. }
  split; [apply runSet_one|]. split; [exact Hres|].
  destruct (launch_error transport params) as [e|] eqn:E.
  - destruct (runSet_launch_failed r target transport params e E) as (t & Hset & Hem & Hst).
    assert (set = (None, Some e)) as Hs by (unfold set; rewrite Hset; reflexivity).
    split; [exact Hs|]. split; [rewrite Hres, Hs; reflexivity|]. split.
    + unfold run. rewrite Run_emitted, Hbody, Hset. exact Hem.
    + intros Hin. apply Run_remote_calls in Hin; [|reflexivity].
      rewrite Hbody, Hset in Hin. cbn in Hin.
      destruct Hin as [?|[?|Hin]]; [discriminate|discriminate|]. exact (Hst Hin).
  - destruct (launch_error_None transport params E) as (proc & out & err & H1 & H2 & H3).
    apply Run_calls. rewrite Hbody. cbn [snd]. apply in_or_app. right.
    rewrite (runSet_launched r target transport params proc out err H1 H2 H3).
    destruct (parseSetOutput _ _); cbn [snd]; [apply In_launch_trace|].
    apply in_or_app. left. apply In_launch_trace.
Qed.

(** An event whose payload can be encoded goes to the emitter once. *)
Lemma emitEvent_marshaled (name : string) (payload : eventPayload) target
    (e : Emitter Target) (data : list byte) :
  json.Marshal payload = (data, None) ->
  let d := {| EventName := name; Target_ := target; Payload := data |} in
  emitEvent name payload target e
  = (match Emit e d with
     | Some err => Some (fmt_Errorf_w "cannot emit event EventCmdStart: " err)
     | None => None
     end, [Emit_call d (Emit e d)]).
Proof.
  intros H d. unfold emitEvent. rewrite H. fold d.
  destruct (Emit e d); reflexivity.
Qed.

(** C3, as the code has it: in a run whose process was created with both
    pipes, the captured stderr goes to the parser first.  When the parser
    reports an error, [Run] returns it and no event is emitted.  When it
    does not, one event per captured stream is emitted, stdout first, with
    the encoded captured text as payload and tagged to the target,
    whatever [Start] and [Wait] reported; and [Run] returns an error as
    soon as the emitter refuses one of the two. *)
Theorem Run_emits_after_parse fw r target params transport
    (proc : Process) (out err : Reader) (p1 p2 : list byte) :
  ExpandObject fw target (inputStepParams_ (ts r)) = (params, None) ->
  preconditions params = true ->
  NewTransport fw (Proto (Transport_ params)) (Options_ (Transport_ params))
  = inr transport ->
  NewProcess transport privileged (argv params) = inr proc ->
  StdoutPipe proc = inr out ->
  StderrPipe proc = inr err ->
  json.Marshal {| events.Msg := string_of_bytes (delivered out) |} = (p1, None) ->
  json.Marshal {| events.Msg := string_of_bytes (delivered err) |} = (p2, None) ->
  let run := Run fw r target in
  let d1 := {| EventName := EventStdout; Target_ := target; Payload := p1 |} in
  let d2 := {| EventName := EventStderr; Target_ := target; Payload := p2 |} in
  match parseSetOutput (delivered err) (ShallFail (Parameter_ params)) with
  | Some e => fst run = Some e /\ emitted (snd run) = []
  | None =>
      match Emit (ev r) d1, Emit (ev r) d2 with
      | None, None => fst run = execution_outcome proc /\ emitted (snd run) = [d1; d2]
      | None, Some _ => (exists e, fst run = Some e) /\ emitted (snd run) = [d1]
      | Some _, _ => (exists e, fst run = Some e) /\ emitted (snd run) = []
      end
  end.
Proof.
  intros Hexp Hpre Htr Hproc Hout Herr Hm1 Hm2 run d1 d2.
  pose proof (Run_body_runSet fw r target params transport Hexp Hpre Htr) as Hbody.
  cbv zeta in Hbody.
  rewrite (runSet_launched r target transport params proc out err Hproc Hout Herr)
    in Hbody.
  unfold run. rewrite Run_result, Run_emitted, Hbody.
  destruct (parseSetOutput (delivered err) (ShallFail (Parameter_ params))) as [e|].
  { cbn [fst snd]. split; [reflexivity|].
    unfold emitted. rewrite omap_app. cbn [omap list_omap app].
    apply emitted_launch_trace. }
  cbn [fst snd]. unfold emit_both.
  rewrite (emitEvent_marshaled EventStdout _ target (ev r) p1 Hm1).
  rewrite (emitEvent_marshaled EventStderr _ target (ev r) p2 Hm2).
  fold d1 d2. cbn [fst snd].
  unfold emitted. rewrite !omap_app.
  fold (emitted (launch_trace (Target := Target) params proc out err)).
  rewrite emitted_launch_trace.
  destruct (Emit (ev r) d1) as [e1|]; cbn.
  { split; [eexists; reflexivity | reflexivity]. }
  destruct (Emit (ev r) d2) as [e2|]; cbn.
  { split; [eexists; reflexivity | reflexivity]. }
  split; reflexivity.
Qed.

Lemma preconditions_false params :
  Proto (Transport_ params) <> supportedProto
  \/ (Password (Parameter_ params) = "" /\ KeyPath (Parameter_ params) = "")
  \/ Option_ (Parameter_ params) = ""
  \/ Value (Parameter_ params) = "" ->
  preconditions params = false.
Proof.
  unfold preconditions. intros [H|[[H1 H2]|[H|H]]].
  - apply String.eqb_neq in H. rewrite H. reflexivity.
  - rewrite H1, H2. cbn. rewrite andb_false_r. reflexivity.
  - rewrite H. cbn. apply andb_false_r.
  - rewrite H. cbn. rewrite orb_true_r. apply andb_false_r.
Qed.

(** C4, as the code has it: [Run] checks the expanded parameters before
    it reaches out.  When the protocol is not [ssh], or neither a password
    nor a key path is given, or the option or the value is empty, [Run]
    returns the error that names the failed precondition, and neither a
    transport nor a process has been asked for. *)
Theorem Run_validates_first fw r target params :
  ExpandObject fw target (inputStepParams_ (ts r)) = (params, None) ->
  Proto (Transport_ params) <> supportedProto
  \/ (Password (Parameter_ params) = "" /\ KeyPath (Parameter_ params) = "")
  \/ Option_ (Parameter_ params) = ""
  \/ Value (Parameter_ params) = "" ->
  fst (Run fw r target) = Some (precondition_error params)
  /\ forall c, In c (snd (Run fw r target)) -> is_remote c = false.
Proof.
  intros Hexp Hbad. apply preconditions_false in Hbad.
  pose proof (Run_body_rejected fw r target params Hexp Hbad) as Hbody.
  split; [rewrite Run_result, Hbody; reflexivity|].
  intros c Hin. destruct (is_remote c) eqn:Hc; [|reflexivity].
  apply Run_remote_calls in Hin; [|exact Hc]. rewrite Hbody in Hin.
  destruct Hin as [<-|[]]. discriminate.
Qed.

(** Parameters that pass the checks do lead to the transport. *)
Lemma Run_constructs_transport fw r target params :
  ExpandObject fw target (inputStepParams_ (ts r)) = (params, None) ->
  preconditions params = true ->
  In (NewTransport_call (Proto (Transport_ params)) (Options_ (Transport_ params)))
     (snd (Run fw r target)).
Proof.
  intros Hexp Hpre. apply Run_calls. unfold Run_body. rewrite Hexp.
  unfold preconditions in Hpre.
  destruct (String.eqb (Proto (Transport_ params)) supportedProto); [|discriminate].
  destruct (String.eqb (Password (Parameter_ params)) ""
            && String.eqb (KeyPath (Parameter_ params)) ""); [discriminate|].
  destruct (String.eqb (Option_ (Parameter_ params)) ""
            || String.eqb (Value (Parameter_ params)) ""); [discriminate|].
  cbn [negb].
  destruct (NewTransport fw _ _) as [e|transport];
    [|destruct (runSet r target transport params) as [[outcome [e|]] t]];
    unfold bind, does, ret; cbn; auto.
Qed.
End Run_properties.

(** *** Concrete runs *)

Ltac find_call := repeat first [left; reflexivity | right].

Lemma Run_launch_or_result_witness :
  let p := scenario.params "pw" "" "SecureBoot" "Enabled" false in
  let run := scenario.run_on scenario.unreachable p scenario.accepting in
  fst run = Some (errors_New "failed to create process: connection refused")
  /\ emitted (snd run) = []
  /\ ~ In Start_call (snd run).
Proof.
  intros p run.
  destruct (Run_launch_or_result
              (Error_JSON := Unmarshal_Error)
              (eventPayload_Marshaler := Marshal_eventPayload)
              (scenario.framework scenario.unreachable)
              (scenario.runner p scenario.accepting) "dut01" p scenario.unreachable
              eq_refl eq_refl eq_refl) as (_ & _ & H).
  assert (Hl : launch_error scenario.unreachable p
               = Some (errors_New "failed to create process: connection refused"))
    by reflexivity.
  rewrite Hl in H. destruct H as (_ & H1 & H2 & H3).
  split; [exact H1|]. split; [exact H2 | exact H3].
Defined.

(** C3, as stated, fails: the process is started and waited for, the parser
    finds a domain error on stderr, and the run ends without any event. *)
Lemma Run_domain_error_emits_nothing :
  let proc := scenario.process (bytes_of_string "setting rejected")
                               (scenario.json_text "{'error':'boom'}") None in
  let run := scenario.run proc (scenario.params "pw" "" "SecureBoot" "Enabled" false)
                          scenario.accepting in
  In Start_call (snd run) /\ In Wait_call (snd run)
  /\ fst run = Some (errors_New "boom")
  /\ emitted (snd run) = [].
Proof.
  intros proc run.
  split; [vm_compute; find_call|]. split; [vm_compute; find_call|].
  split; vm_compute; reflexivity.
Qed.

Lemma Run_emits_after_parse_witness :
  let proc := scenario.process (bytes_of_string "ok") (scenario.json_text "{'error':''}")
                               None in
  let run := scenario.run proc (scenario.params "pw" "" "SecureBoot" "Enabled" false)
                          scenario.accepting in
  fst run = None
  /\ emitted (snd run)
     = [ {| EventName := "Stdout"; Target_ := "dut01";
            Payload := scenario.json_text "{'Msg':'ok'}" |};
         {| EventName := "Stderr"; Target_ := "dut01";
            Payload := scenario.json_text "{'Msg':'{\'error\':\'\'}'}" |} ].
Proof.
  intros proc run.
  pose (p := scenario.params "pw" "" "SecureBoot" "Enabled" false).
  pose proof (Run_emits_after_parse
                (Error_JSON := Unmarshal_Error)
                (eventPayload_Marshaler := Marshal_eventPayload)
                (scenario.framework (scenario.transport_of proc))
                (scenario.runner p scenario.accepting) "dut01" p
                (scenario.transport_of proc) proc
                (scenario.reader_of (bytes_of_string "ok"))
                (scenario.reader_of (scenario.json_text "{'error':''}"))
                (scenario.json_text "{'Msg':'ok'}")
                (scenario.json_text "{'Msg':'{\'error\':\'\'}'}")
                eq_refl eq_refl eq_refl eq_refl eq_refl eq_refl) as H.
  assert (Hm1 : json.Marshal (Marshaler := Marshal_eventPayload)
                  {| events.Msg := string_of_bytes
                                     (delivered (scenario.reader_of (bytes_of_string "ok"))) |}
                = (scenario.json_text "{'Msg':'ok'}", None)) by (vm_compute; reflexivity).
  assert (Hm2 : json.Marshal (Marshaler := Marshal_eventPayload)
                  {| events.Msg := string_of_bytes
                                     (delivered (scenario.reader_of
                                                   (scenario.json_text "{'error':''}"))) |}
                = (scenario.json_text "{'Msg':'{\'error\':\'\'}'}", None))
    by (vm_compute; reflexivity).
  specialize (H Hm1 Hm2).
  assert (Hp : parseSetOutput (Error_JSON := Unmarshal_Error)
                 (delivered (scenario.reader_of (scenario.json_text "{'error':''}")))
                 (ShallFail (Parameter_ p)) = None) by (vm_compute; reflexivity).
  cbv zeta in H. rewrite Hp in H. exact H.
Defined.

(** A failed read of stderr is printed and the run goes on: both events
    are emitted, the one for stderr with an empty text. *)
Example Run_survives_broken_stderr :
  let proc := {| StdoutPipe := inr (scenario.reader_of (bytes_of_string "ok"));
                 StderrPipe := inr (scenario.broken_reader
                                      (scenario.json_text "{'error':'bo")
                                      (errors_New "connection reset"));
                 Start := None; Wait := None |} in
  let run := scenario.run proc (scenario.params "pw" "" "SecureBoot" "Enabled" false)
                          scenario.accepting in
  fst run = None
  /\ In (Printf_call ("failed to read from Stderr buffer: connection reset"
                        +:+ String "010" EmptyString)) (snd run)
  /\ map Payload (emitted (snd run))
     = [scenario.json_text "{'Msg':'ok'}"; scenario.json_text "{'Msg':''}"].
Proof.
  intros proc run.
  split; [vm_compute; reflexivity|]. split; [vm_compute; find_call|].
  vm_compute; reflexivity.
Qed.

(** An emitter that refuses the first event ends the run with an error,
    also when the process itself succeeded. *)
Example Run_fails_on_refused_event :
  let proc := scenario.process (bytes_of_string "ok") [] None in
  let run := scenario.run proc (scenario.params "pw" "" "SecureBoot" "Enabled" false)
                          (scenario.rejecting (errors_New "bus down")) in
  fst run
  = Some (errors_New "cannot emit event: cannot emit event EventCmdStart: bus down")
  /\ emitted (snd run) = [].
Proof. intros proc run. split; vm_compute; reflexivity. Qed.

(** The exit status of the process is what the run returns once both
    events are out. *)
Example Run_returns_exit_status :
  let proc := scenario.process (bytes_of_string "ok") [] (Some (errors_New "exit status 1")) in
  let run := scenario.run proc (scenario.params "" "/root/.ssh/id_rsa" "SecureBoot" "Enabled" false)
                          scenario.accepting in
  fst run = Some (errors_New "exit status 1")
  /\ length (emitted (snd run)) = 2%nat
  /\ In (NewProcess_call "sudo"
           ["/usr/bin/tool"; "wmi"; "set"; "--option=SecureBoot"; "--value=Enabled";
            "--private-key=/root/.ssh/id_rsa"; "--json"]) (snd run).
Proof.
  intros proc run.
  split; [vm_compute; reflexivity|]. split; [vm_compute; reflexivity|].
  vm_compute; find_call.
Qed.

(** The locked-options message is tolerated when the step expects the
    failure, and is an error when it does not. *)
Example Run_tolerates_locked_options :
  let proc := scenario.process
                (bytes_of_string "")
                (scenario.json_text "{'error':'BIOS options are locked, needs unlocking.'}")
                None in
  fst (scenario.run proc (scenario.params "pw" "" "SecureBoot" "Enabled" true)
                    scenario.accepting) = None
  /\ fst (scenario.run proc (scenario.params "pw" "" "SecureBoot" "Enabled" false)
                       scenario.accepting)
     = Some (errors_New "BIOS options are locked, needs unlocking.").
Proof. intros proc. split; vm_compute; reflexivity. Qed.

(** C4, as stated, fails: with a password and a key path both given, no
    precondition is violated for the code; the transport is constructed and
    the process is spawned, with the password. *)
Lemma Run_accepts_both_credentials :
  let p := scenario.params "pw" "/root/.ssh/id_rsa" "SecureBoot" "Enabled" false in
  let run := scenario.run (scenario.process (bytes_of_string "ok") [] None) p
                          scenario.accepting in
  Password (Parameter_ p) <> "" /\ KeyPath (Parameter_ p) <> ""
  /\ fst run = None
  /\ In (NewTransport_call "ssh" []) (snd run)
  /\ In (NewProcess_call "sudo"
           ["/usr/bin/tool"; "wmi"; "set"; "--option=SecureBoot"; "--value=Enabled";
            "--password=pw"; "--json"]) (snd run).
Proof.
  intros p run.
  split; [discriminate|]. split; [discriminate|].
  split; [vm_compute; reflexivity|].
  split; vm_compute; find_call.
Qed.

Lemma Run_validates_first_witness :
  let p := scenario.params "pw" "" "" "Enabled" false in
  let run := scenario.run (scenario.process (bytes_of_string "ok") [] None) p
                          scenario.accepting in
  fst run = Some (errors_New "bios option and value must be set")
  /\ forall c, In c (snd run) -> is_remote c = false.
Proof.
  intros p run.
  exact (Run_validates_first
           (Error_JSON := Unmarshal_Error)
           (eventPayload_Marshaler := Marshal_eventPayload)
           (scenario.framework
              (scenario.transport_of (scenario.process (bytes_of_string "ok") [] None)))
           (scenario.runner p scenario.accepting) "dut01" p
           eq_refl (or_intror (or_intror (or_introl eq_refl)))).
Defined.

(** ** The HTTP client *)

Lemma fst_bind {call A B : Type} (m : M call A) (k : A -> M call B) :
  fst (bind m k) = fst (k (fst m)).
Proof. unfold bind. destruct (k (fst m)). reflexivity. Qed.

Lemma snd_bind {call A B : Type} (m : M call A) (k : A -> M call B) :
  snd (bind m k) = snd m ++ snd (k (fst m)).
Proof. unfold bind. destruct (k (fst m)). reflexivity. Qed.

Section http_properties.
Import url http.
Variable url_Parse : string -> error + URL.
Variable URL_String : URL -> string.
Variable http_PostForm : string -> Values -> error + Response.
Context {State : Type} (State_String : State -> string).
Context {ResponseDataVersion ResponseDataStart ResponseDataStop
         ResponseDataStatus ResponseDataRetry ResponseDataList : Type}.
Context {Version_data : api.ResponseData ResponseDataVersion}
        {Start_data : api.ResponseData ResponseDataStart}
        {Stop_data : api.ResponseData ResponseDataStop}
        {Status_data : api.ResponseData ResponseDataStatus}
        {Retry_data : api.ResponseData ResponseDataRetry}
        {List_data : api.ResponseData ResponseDataList}.
Context {Response_JSON : json.JSON HTTPPartiallyDecodedResponse}
        {HTTPAPIError_JSON : json.JSON httplistener.HTTPAPIError}.

Local Abbreviation request := (request url_Parse URL_String http_PostForm).
Local Abbreviation Version :=
  (Version url_Parse URL_String http_PostForm (Version_data := Version_data)).
Local Abbreviation Start :=
  (Start url_Parse URL_String http_PostForm (Start_data := Start_data)).
Local Abbreviation Stop :=
  (Stop url_Parse URL_String http_PostForm (Stop_data := Stop_data)).
Local Abbreviation Status_ :=
  (Status_ url_Parse URL_String http_PostForm (Status_data := Status_data)).
Local Abbreviation Retry :=
  (Retry url_Parse URL_String http_PostForm (Retry_data := Retry_data)).
Local Abbreviation List_ :=
  (List_ url_Parse URL_String http_PostForm State_String (List_data := List_data)).


(** [request] returns a response exactly when it returns no error. *)
Lemma request_response_or_error (h : HTTP) (requestor verb : string) (params : Values) :
  match fst (request h requestor verb params) with
  | (Some _, None) | (None, Some _) => True
  | _ => False
  end.
Proof.
  unfold http.request.
  destruct (url_Parse (Addr h)) as [e|u]; [exact I|].
  destruct (String.eqb (Scheme u) ""); [exact I|].
  destruct (negb _ && negb _); [exact I|].
  rewrite !fst_bind. cbn [does ret fst].
  destruct (http_PostForm _ _) as [e|resp]; [exact I|].
  rewrite !fst_bind. cbn [ret fst].
  destruct (ioutil_ReadAll (Body resp)) as [body [e|]]; [exact I|].
  rewrite fst_bind. cbn [does fst].
  destruct (StatusCode resp =? StatusOK)%Z.
  - destruct (json.Unmarshal body _) as [apiResp [e|]]; exact I.
  - destruct (json.Unmarshal body _) as [apiErr [e|]]; exact I.
Qed.

(** What [request] returns once the server has answered and the body has
    been read. *)
Lemma request_answered (h : HTTP) (requestor verb : string) (params : Values)
    (u : URL) (resp : Response) (body : list byte) :
  url_Parse (Addr h) = inr u ->
  Scheme u = "http" \/ Scheme u = "https" ->
  (forall address form, http_PostForm address form = inr resp) ->
  ioutil_ReadAll (Body resp) = (body, None) ->
  fst (request h requestor verb params)
  = if (StatusCode resp =? StatusOK)%Z then
      match json.Unmarshal body
              {| ServerID := ""; Type_ := ""; Data := []; Error := None |} with
      | (apiResp, None) => (Some apiResp, None)
      | (_, Some e) =>
          (None, Some (fmt_Errorf ("response is not a valid HTTP API response object: '"
                                     +:+ string_of_bytes body +:+ "': " +:+ Error_text e)))
      end
    else
      match json.Unmarshal body {| httplistener.Msg := "" |} with
      | (apiErr, None) =>
          (Some {| ServerID := ""; Type_ := ""; Data := [];
                   Error := Some (xjson.NewError (errors_New (httplistener.Msg apiErr))) |},
           None)
      | (_, Some e) =>
          (None, Some (fmt_Errorf ("response is not a valid HTTP API Error object: '"
                                     +:+ string_of_bytes body +:+ "': " +:+ Error_text e)))
      end.
Proof.
  intros Hu Hscheme Hpost Hbody. unfold http.request. rewrite Hu.
  assert (String.eqb (Scheme u) "" = false) as ->.
  { apply String.eqb_neq. destruct Hscheme as [-> | ->]; discriminate. }
  assert (negb (String.eqb (Scheme u) "http") && negb (String.eqb (Scheme u) "https")
          = false) as ->.
  { destruct Hscheme as [-> | ->]; reflexivity. }
  rewrite !fst_bind. cbn [does ret fst]. rewrite Hpost.
  rewrite !fst_bind. cbn [ret fst]. rewrite Hbody.
  rewrite fst_bind. cbn [does fst].
  destruct (StatusCode resp =? StatusOK)%Z.
  - destruct (json.Unmarshal body _) as [apiResp [e|]]; reflexivity.
  - destruct (json.Unmarshal body _) as [apiErr [e|]]; reflexivity.
Qed.

(** An address that cannot be parsed ends the request as early. *)
Lemma request_parse_error (h : HTTP) (requestor verb : string) (params : Values)
    (e : error) :
  url_Parse (Addr h) = inl e ->
  request h requestor verb params
  = ((None, Some (fmt_Errorf ("failed to parse server address '" +:+ Addr h
                                +:+ "': " +:+ Error_text e))), []).
Proof. intros H. unfold http.request. rewrite H. reflexivity. Qed.




(** C10: when the server answers with status 200 and the decoded response
    has an empty [Data], every verb method returns the zero value of its
    typed data together with the [ServerID] and the [Error] of the
    response, and no error: the decoder of the typed data, whatever it
    is, has no part in the result. *)
Theorem verbs_empty_data (h : HTTP) (requestor jobDescriptor : string)
    (jobID : Z) (states : list State) (tags : list string)
    (u : URL) (resp : Response) (body : list byte)
    (apiResp : HTTPPartiallyDecodedResponse) :
  url_Parse (Addr h) = inr u ->
  Scheme u = "http" \/ Scheme u = "https" ->
  (forall address form, http_PostForm address form = inr resp) ->
  StatusCode resp = StatusOK ->
  ioutil_ReadAll (Body resp) = (body, None) ->
  json.Unmarshal body {| ServerID := ""; Type_ := ""; Data := []; Error := None |}
  = (apiResp, None) ->
  Data apiResp = [] ->
  let empty (D : Type) (zero : D) : option (api.Response D) * option error :=
    (Some {| api.ServerID := ServerID apiResp; api.Data := zero;
             api.Err := Error apiResp |}, None) in
  fst (Version h requestor) = empty _ api.zero
  /\ fst (Start h requestor jobDescriptor) = empty _ api.zero
  /\ fst (Stop h requestor jobID) = empty _ api.zero
  /\ fst (Status_ h requestor jobID) = empty _ api.zero
  /\ fst (Retry h requestor jobID) = empty _ api.zero
  /\ fst (List_ h requestor states tags) = empty _ api.zero.
Proof.
  intros Hu Hscheme Hpost Hstatus Hbody Hdec Hdata empty.
  apply Z.eqb_eq in Hstatus.
  assert (Hreq : forall verb params,
             fst (request h requestor verb params) = (Some apiResp, None)).
  { intros verb params.
    rewrite (request_answered h requestor verb params u resp body Hu Hscheme Hpost Hbody).
    rewrite Hstatus, Hdec. reflexivity. }
  repeat split;
    [ unfold http.Version | unfold http.Start | unfold http.Stop
    | unfold http.Status_ | unfold http.Retry | unfold http.List_ ];
    cbv zeta; rewrite fst_bind, Hreq, Hdata; reflexivity.
Qed.
End http_properties.

(** *** Concrete requests *)



Lemma verbs_empty_data_witness :
  let h := {| http.Addr := "https://contest.example" |} in
  let body := scenario.json_text "{'ServerID':'srv-1','Type':'version','Error':null}" in
  fst (http.Version http_scenario.url_Parse http_scenario.URL_String
         (http_scenario.server 200 body)
         (Version_data := http_scenario.undecodable)
         (Response_JSON := http.Unmarshal_HTTPPartiallyDecodedResponse
                             http_scenario.xjson_UnmarshalJSON)
         (HTTPAPIError_JSON := httplistener.Unmarshal_HTTPAPIError)
         h "me")
  = (Some {| api.ServerID := "srv-1"; api.Data := []; api.Err := None |}, None).
Proof.
  intros h body.
  assert (Hdec : json.Unmarshal
                   (JSON := http.Unmarshal_HTTPPartiallyDecodedResponse
                              http_scenario.xjson_UnmarshalJSON) body
                   {| http.ServerID := ""; http.Type_ := ""; http.Data := [];
                      http.Error := None |}
                 = ({| http.ServerID := "srv-1"; http.Type_ := "version"; http.Data := [];
                       http.Error := None |}, None))
    by (vm_compute; reflexivity).
  pose proof (verbs_empty_data
                http_scenario.url_Parse http_scenario.URL_String
                (http_scenario.server 200 body) http_scenario.job_State_String
                (Version_data := http_scenario.undecodable)
                (Start_data := http_scenario.undecodable)
                (Stop_data := http_scenario.undecodable)
                (Status_data := http_scenario.undecodable)
                (Retry_data := http_scenario.undecodable)
                (List_data := http_scenario.undecodable)
                (Response_JSON := http.Unmarshal_HTTPPartiallyDecodedResponse
                                    http_scenario.xjson_UnmarshalJSON)
                (HTTPAPIError_JSON := httplistener.Unmarshal_HTTPAPIError)
                h "me" "" 0%Z [] []
                {| url.Scheme := "https"; url.Path := ""; url.rest := "//contest.example" |}
                {| http.Status := http.Itoa 200; http.StatusCode := 200;
                   http.Body := scenario.reader_of body |}
                body _
                eq_refl (or_intror eq_refl) (fun _ _ => eq_refl) eq_refl eq_refl Hdec eq_refl)
    as H.
  exact (proj1 H).
Defined.

(** * Further properties *)

(** ** The run of a target, call by call *)

Section Run_calls.
Context {Target : Type}.
Context {Error_JSON : json.JSON Error} {eventPayload_Marshaler : json.Marshaler eventPayload}.
Implicit Types (fw : Framework (Target := Target)) (r : TargetRunner (Target := Target)).
Implicit Types (target : Target) (transport : Transport) (params : inputStepParams).

(** [emitEvent] either fails to encode and calls nothing, or calls the
    emitter once with the encoded payload. *)
Lemma emitEvent_cases (name : string) (payload : eventPayload) target
    (e : Emitter Target) :
  (exists data cause,
      json.Marshal payload = (data, Some cause)
      /\ emitEvent name payload target e
         = (Some (fmt_Errorf_w ("cannot marshal payload for event '" +:+ name +:+ "': ")
                               cause), []))
  \/ (exists data,
         json.Marshal payload = (data, None)
         /\ let d := {| EventName := name; Target_ := target; Payload := data |} in
            emitEvent name payload target e
            = (match Emit e d with
               | Some err => Some (fmt_Errorf_w "cannot emit event EventCmdStart: " err)
               | None => None
               end, [Emit_call d (Emit e d)])).
Proof.
  destruct (json.Marshal payload) as [data [cause|]] eqn:Hm.
  - left. exists data, cause. split; [reflexivity|]. unfold emitEvent. rewrite Hm.
    reflexivity.
  - right. exists data. split; [reflexivity|].
    apply (emitEvent_marshaled name payload target e data Hm).
Qed.

Lemma emit_both_emission r target (stdout stderr : list byte) (outcome : option error) :
  emission target outcome (fst (emit_both r target stdout stderr outcome))
           (snd (emit_both r target stdout stderr outcome)).
Proof.
  unfold emit_both.
  destruct (emitEvent_cases EventStdout {| events.Msg := string_of_bytes stdout |}
              target (ev r)) as [(p1 & c1 & _ & ->) | (p1 & _ & ->)]; cbn [fst snd].
  { constructor. }
  destruct (Emit (ev r) _) as [x1|]; [apply refused_stdout|].
  destruct (emitEvent_cases EventStderr {| events.Msg := string_of_bytes stderr |}
              target (ev r)) as [(p2 & c2 & _ & ->) | (p2 & _ & ->)]; cbn [fst snd app].
  { apply unencodable_stderr. }
  destruct (Emit (ev r) _) as [x2|]; [apply refused_stderr | apply both_emitted].
Qed.

(** The run that gets to a started process, in full. *)
Lemma Run_body_launched fw r target params transport
    (proc : Process) (out err : Reader) :
  launched fw r target = Some (params, transport, proc, out, err) ->
  Run_body fw r target
  = match parseSetOutput (delivered err) (ShallFail (Parameter_ params)) with
    | Some e =>
        (Some e,
         [ExpandObject_call;
          NewTransport_call (Proto (Transport_ params)) (Options_ (Transport_ params))]
           ++ launch_trace params proc out err)
    | None =>
        let res := emit_both r target (delivered out) (delivered err)
                             (execution_outcome proc) in
        (match snd (fst res) with Some e => Some e | None => fst (fst res) end,
         [ExpandObject_call;
          NewTransport_call (Proto (Transport_ params)) (Options_ (Transport_ params))]
           ++ launch_trace params proc out err ++ snd res)
    end
  /\ ExpandObject fw target (inputStepParams_ (ts r)) = (params, None)
  /\ preconditions params = true.
Proof.
  unfold launched. intros H.
  destruct (ExpandObject fw target (inputStepParams_ (ts r))) as [params' [e|]] eqn:Hexp;
    [discriminate|].
  destruct (preconditions params') eqn:Hpre; [|discriminate].
  destruct (NewTransport fw _ _) as [e|transport'] eqn:Htr; [discriminate|].
  destruct (NewProcess transport' privileged (argv params')) as [e|proc'] eqn:Hproc;
    [discriminate|].
  destruct (StdoutPipe proc') as [e|out'] eqn:Hout; [discriminate|].
  destruct (StderrPipe proc') as [e|err'] eqn:Herr; [discriminate|].
  injection H as <- <- <- <- <-.
  split; [|split; [reflexivity | exact Hpre]].
  rewrite (Run_body_runSet fw r target params' transport' Hexp Hpre Htr).
  rewrite (runSet_launched r target transport' params' proc' out' err' Hproc Hout Herr).
  destruct (parseSetOutput _ _); reflexivity.
Qed.

(** The run that does not get that far ends with an error; the process is
    not started and no event is handed to the emitter. *)
Lemma Run_body_unlaunched fw r target :
  launched fw r target = None ->
  exists e t,
    Run_body fw r target = (Some e, t)
    /\ attempted t = [] /\ ~ In Start_call t /\ ~ In Wait_call t
    /\ forall c, In c t ->
                 body_call target (fst (ExpandObject fw target (inputStepParams_ (ts r)))) c.
Proof.
  unfold launched. intros H.
  destruct (ExpandObject fw target (inputStepParams_ (ts r))) as [params [e|]] eqn:Hexp.
  { rewrite (Run_body_expand_error fw r target params e Hexp).
    do 2 eexists. split; [reflexivity|]. split; [reflexivity|].
    split; [intros [?|[]]; discriminate|]. split; [intros [?|[]]; discriminate|].
    intros c [<-|[]]. exact I. }
  cbn [fst].
  destruct (preconditions params) eqn:Hpre.
  2:{ rewrite (Run_body_rejected fw r target params Hexp Hpre).
      do 2 eexists. split; [reflexivity|]. split; [reflexivity|].
      split; [intros [?|[]]; discriminate|]. split; [intros [?|[]]; discriminate|].
      intros c [<-|[]]. exact I. }
  destruct (NewTransport fw _ _) as [e|transport] eqn:Htr.
  { rewrite (Run_body_transport_error fw r target params e Hexp Hpre Htr).
    do 2 eexists. split; [reflexivity|]. split; [reflexivity|].
    split; [intros [?|[?|[]]]; discriminate|]. split; [intros [?|[?|[]]]; discriminate|].
    intros c [<-|[<-|[]]]; cbn; auto. }
  rewrite (Run_body_runSet fw r target params transport Hexp Hpre Htr).
  unfold runSet.
  destruct (NewProcess transport privileged (argv params)) as [e|proc].
  { do 2 eexists. split; [reflexivity|]. split; [reflexivity|].
    split; [intros [?|[?|[?|[]]]]; discriminate|].
    split; [intros [?|[?|[?|[]]]]; discriminate|].
    intros c [<-|[<-|[<-|[]]]]; cbn; auto. }
  destruct (StdoutPipe proc) as [e|out].
  { do 2 eexists. split; [reflexivity|]. split; [reflexivity|].
    split; [intros [?|[?|[?|[?|[]]]]]; discriminate|].
    split; [intros [?|[?|[?|[?|[]]]]]; discriminate|].
    intros c [<-|[<-|[<-|[<-|[]]]]]; cbn; auto. }
  destruct (StderrPipe proc) as [e|err]; [|discriminate].
  do 2 eexists. split; [reflexivity|]. split; [reflexivity|].
  split; [intros [?|[?|[?|[?|[?|[]]]]]]; discriminate|].
  split; [intros [?|[?|[?|[?|[?|[]]]]]]; discriminate|].
  intros c [<-|[<-|[<-|[<-|[<-|[]]]]]]; cbn; auto.
Qed.

Lemma Run_attempted fw r target :
  attempted (snd (Run fw r target)) = attempted (snd (Run_body fw r target)).
Proof.
  rewrite Run_unfold. cbn [snd]. unfold attempted. cbn [omap list_omap].
  rewrite !omap_app.
  destruct (Timeout (Options (inputStepParams_ (ts r))) =? 0)%Z; cbn;
    rewrite ?app_nil_r; reflexivity.
Qed.

Lemma attempted_launch_trace params (proc : Process) (out err : Reader) :
  attempted (launch_trace (Target := Target) params proc out err) = [].
Proof.
  unfold launch_trace, attempted, read_log. rewrite !omap_app.
  destruct (Start proc); destruct (read_error out); destruct (read_error err);
    reflexivity.
Qed.

Lemma In_launch_trace_inv params (proc : Process) (out err : Reader) (c : call Target) :
  In c (launch_trace params proc out err) ->
  c = NewProcess_call privileged (argv params)
  \/ c = StdoutPipe_call \/ c = StderrPipe_call \/ c = Start_call
  \/ (c = Wait_call /\ Start proc = None)
  \/ exists text, c = Printf_call text.
Proof.
  unfold launch_trace, read_log. intros H.
  repeat (apply in_app_or in H; destruct H as [H|H]).
  - destruct H as [<-|[<-|[<-|[<-|[]]]]]; auto 6.
  - destruct (Start proc); [destruct H|]. destruct H as [<-|[]]. auto 10.
  - destruct (read_error out); [|destruct H]. destruct H as [<-|[]]. eauto 10.
  - destruct (read_error err); [|destruct H]. destruct H as [<-|[]]. eauto 10.
Qed.

(** Every call of the body of a run is one that [body_call] admits. *)
Lemma Run_body_calls fw r target (c : call Target) :
  In c (snd (Run_body fw r target)) ->
  body_call target (fst (ExpandObject fw target (inputStepParams_ (ts r)))) c.
Proof.
  destruct (launched fw r target) as [[[[[params transport] proc] out] err]|] eqn:L.
  2:{ destruct (Run_body_unlaunched fw r target L) as (e & t & -> & _ & _ & _ & H).
      exact (H c). }
  destruct (Run_body_launched fw r target params transport proc out err L)
    as (-> & -> & Hpre). cbn [fst].
  assert (Hpre_trace : forall c', In c' (launch_trace params proc out err) ->
                                  body_call target params c').
  { intros c' H. apply In_launch_trace_inv in H.
    destruct H as [->|[->|[->|[->|[[-> _]|[text ->]]]]]]; cbn; auto. }
  destruct (parseSetOutput _ _) as [e|]; cbn [snd app]; intros H.
  - destruct H as [<-|[<-|H]]; cbn; auto.
  - destruct H as [<-|[<-|H]]; cbn; auto.
    apply in_app_or in H as [H|H]; [auto|].
    pose proof (emit_both_emission r target (delivered out) (delivered err)
                  (execution_outcome proc)) as E.
    destruct (emit_both r target (delivered out) (delivered err) (execution_outcome proc))
      as [res t]. cbn [fst snd] in E, H.
    inversion E as [e|e x p1|e p1|e x p1 p2|p1 p2]; subst;
      cbn in H; intuition (subst; cbn; auto).
Qed.

(** X1: the events of a run are registered ones.  Whatever a run hands to
    the emitter carries the target of the run, and the names it uses are,
    in order, a beginning of the registered list [Events]. *)
Theorem Run_attempts_registered fw r target :
  Forall (fun d => Target_ d = target) (attempted (snd (Run fw r target)))
  /\ exists rest, map EventName (attempted (snd (Run fw r target))) ++ rest = Events.
Proof.
  rewrite Run_attempted.
  destruct (launched fw r target) as [[[[[params transport] proc] out] err]|] eqn:L.
  2:{ destruct (Run_body_unlaunched fw r target L) as (e & t & -> & Ht & _).
      cbn [snd]. rewrite Ht. split; [constructor | exists Events; reflexivity]. }
  destruct (Run_body_launched fw r target params transport proc out err L) as (-> & _).
  destruct (parseSetOutput _ _) as [e|]; cbn [snd]; unfold attempted;
    rewrite !omap_app; fold (attempted (launch_trace (Target := Target) params proc out err));
    rewrite attempted_launch_trace; cbn [omap list_omap app].
  { split; [constructor | exists Events; reflexivity]. }
  pose proof (emit_both_emission r target (delivered out) (delivered err)
                (execution_outcome proc)) as E.
  destruct (emit_both r target (delivered out) (delivered err) (execution_outcome proc))
    as [res t]. cbn [fst snd] in E |- *.
  inversion E as [e|e x p1|e p1|e x p1 p2|p1 p2]; subst;
    cbn; (split; [repeat constructor|]).
  - exists Events; reflexivity.
  - exists [EventStderr]; reflexivity.
  - exists [EventStderr]; reflexivity.
  - exists []; reflexivity.
  - exists []; reflexivity.
Qed.

(** X2: success means the audit trail is complete.  When [Run] returns nil,
    the process was started and waited for, and exactly the two events,
    stdout then stderr, were accepted by the emitter. *)
Theorem Run_success_complete fw r target :
  fst (Run fw r target) = None ->
  In Start_call (snd (Run fw r target))
  /\ In Wait_call (snd (Run fw r target))
  /\ map EventName (emitted (snd (Run fw r target))) = Events.
Proof.
  rewrite Run_result, Run_emitted. intros Hnil.
  destruct (launched fw r target) as [[[[[params transport] proc] out] err]|] eqn:L.
  2:{ destruct (Run_body_unlaunched fw r target L) as (e & t & Hb & _).
      rewrite Hb in Hnil. discriminate. }
  destruct (Run_body_launched fw r target params transport proc out err L) as (Hb & _).
  assert (Hcalls : forall c, In c (launch_trace (Target := Target) params proc out err) ->
                             In c (snd (Run fw r target))).
  { intros c Hc. apply Run_calls. rewrite Hb.
    destruct (parseSetOutput _ _); cbn [snd app]; do 2 right;
      [exact Hc | apply in_or_app; left; exact Hc]. }
  rewrite Hb in Hnil |- *.
  destruct (parseSetOutput _ _) as [e|]; [discriminate|]. cbn [fst snd] in Hnil |- *.
  pose proof (emit_both_emission r target (delivered out) (delivered err)
                (execution_outcome proc)) as E.
  destruct (emit_both r target (delivered out) (delivered err) (execution_outcome proc))
    as [res t]. cbn [fst snd] in E, Hnil |- *.
  inversion E as [e|e x p1|e p1|e x p1 p2|p1 p2]; subst; cbn in Hnil; try discriminate.
  unfold execution_outcome in Hnil.
  destruct (Start proc) as [e0|] eqn:Hstart; [discriminate|].
  split; [apply Hcalls, In_launch_trace|]. split.
  - apply Hcalls. unfold launch_trace. rewrite Hstart. cbn. auto 6.
  - unfold emitted. rewrite !omap_app.
    fold (emitted (launch_trace (Target := Target) params proc out err)).
    rewrite emitted_launch_trace. reflexivity.
Qed.

Lemma Run_calls_inv fw r target (c : call Target) :
  In c (snd (Run fw r target)) ->
  c = Infof_call ("Executing on target " +:+ Target_String fw target)
  \/ (Timeout (Options (inputStepParams_ (ts r))) <> 0%Z
      /\ (c = WithTimeout_call (Timeout (Options (inputStepParams_ (ts r))))
          \/ c = cancel_call))
  \/ In c (snd (Run_body fw r target)).
Proof.
  rewrite Run_unfold. cbn [snd]. intros [<-|H]; [auto|].
  destruct (Z.eqb_spec (Timeout (Options (inputStepParams_ (ts r)))) 0) as [E|E].
  - cbn [app] in H. rewrite app_nil_r in H. auto.
  - cbn [app] in H. destruct H as [<-|H]; [auto|].
    apply in_app_or in H as [H|[<-|[]]]; auto.
Qed.

(** X3: what goes to the remote shell.  Every process that a run asks the
    transport for is the tool under [sudo], with the expanded option and
    value, both non-empty, and one credential argument: the password when
    there is one, the key path otherwise, and then the key path is not
    empty. *)
Theorem Run_spawns_privileged fw r target (bin : string) (args : list string) :
  In (NewProcess_call bin args) (snd (Run fw r target)) ->
  let p := Parameter_ (fst (ExpandObject fw target (inputStepParams_ (ts r)))) in
  bin = "sudo"
  /\ args = [ToolPath p; "wmi"; "set"; "--option=" +:+ Option_ p; "--value=" +:+ Value p;
             (if String.eqb (Password p) "" then "--private-key=" +:+ KeyPath p
              else "--password=" +:+ Password p);
             "--json"]
  /\ Option_ p <> "" /\ Value p <> ""
  /\ (Password p = "" -> KeyPath p <> "").
Proof.
  intros H p.
  apply Run_calls_inv in H as [H|[[_ [H|H]]|H]]; try discriminate.
  apply Run_body_calls in H. cbn in H. destruct H as (Hpre & -> & ->).
  unfold preconditions in Hpre. apply andb_prop in Hpre as [Hpre Hov].
  apply andb_prop in Hpre as [_ Hcred].
  apply negb_true_iff in Hov, Hcred.
  apply orb_false_elim in Hov as [Ho Hv].
  fold p in Hcred, Ho, Hv.
  split; [reflexivity|]. split.
  - unfold argv, authString, cmd, jsonFlag. fold p.
    destruct (String.eqb (Password p) "") eqn:Hp; cbn [negb]; [|reflexivity].
    cbn [andb] in Hcred. rewrite Hcred. reflexivity.
  - apply String.eqb_neq in Ho, Hv. split; [exact Ho|]. split; [exact Hv|].
    intros Hp. rewrite Hp in Hcred. cbn in Hcred. apply String.eqb_neq. exact Hcred.
Qed.

(** X4: the scope of the timeout.  After the log line, a run under a
    timeout derives the bounded context, runs its body and releases the
    context last, on every path, the failing ones included; a run without
    a timeout does neither.  The timeout is the one of the step as
    configured, read before the parameters are expanded. *)
Theorem Run_timeout_scope fw r target :
  let timeout := Timeout (Options (inputStepParams_ (ts r))) in
  exists body,
    (forall c, In c body -> c <> cancel_call /\ forall d, c <> WithTimeout_call d)
    /\ snd (Run fw r target)
       = Infof_call ("Executing on target " +:+ Target_String fw target)
           :: (if (timeout =? 0)%Z then body
               else WithTimeout_call timeout :: body ++ [cancel_call]).
Proof.
  intros timeout. exists (snd (Run_body fw r target)). split.
  - intros c Hc. apply Run_body_calls in Hc.
    split; [|intros d]; intros ->; exact Hc.
  - rewrite Run_unfold. cbn [snd]. fold timeout.
    destruct (timeout =? 0)%Z; cbn [app]; rewrite ?app_nil_r; reflexivity.
Qed.


(** X6: a failed expansion is returned as it is.  When the parameters
    cannot be expanded, the run returns the expander's error unchanged and
    reaches out to nothing: no transport, no process, no event. *)
Theorem Run_expand_error_returned fw r target params (e : error) :
  ExpandObject fw target (inputStepParams_ (ts r)) = (params, Some e) ->
  fst (Run fw r target) = Some e
  /\ (forall c, In c (snd (Run fw r target)) -> is_remote c = false)
  /\ attempted (snd (Run fw r target)) = [].
Proof.
  intros Hexp. pose proof (Run_body_expand_error fw r target params e Hexp) as Hb.
  split; [rewrite Run_result, Hb; reflexivity|]. split.
  - intros c Hc. destruct (is_remote c) eqn:E; [|reflexivity].
    apply Run_remote_calls in Hc; [|exact E]. rewrite Hb in Hc.
    destruct Hc as [<-|[]]. discriminate.
  - rewrite Run_attempted, Hb. reflexivity.
Qed.

(** X7: a transport that cannot be constructed.  The run returns an error
    that wraps the cause, so that the caller can still find the cause in
    it, and no process is asked for. *)
Theorem Run_transport_error_wrapped fw r target params (e : error) :
  ExpandObject fw target (inputStepParams_ (ts r)) = (params, None) ->
  preconditions params = true ->
  NewTransport fw (Proto (Transport_ params)) (Options_ (Transport_ params)) = inl e ->
  (exists err, fst (Run fw r target) = Some err
               /\ errors_Unwrap err = Some e
               /\ Error_text err = "failed to create transport: " +:+ Error_text e)
  /\ (forall bin args, ~ In (NewProcess_call bin args) (snd (Run fw r target)))
  /\ attempted (snd (Run fw r target)) = [].
Proof.
  intros Hexp Hpre Htr.
  pose proof (Run_body_transport_error fw r target params e Hexp Hpre Htr) as Hb.
  split; [|split].
  - eexists. rewrite Run_result, Hb. cbn [fst]. split; [reflexivity|].
    split; reflexivity.
  - intros bin args Hc. apply Run_remote_calls in Hc; [|reflexivity].
    rewrite Hb in Hc. destruct Hc as [?|[?|[]]]; discriminate.
  - rewrite Run_attempted, Hb. reflexivity.
Qed.

(** X8: a process that does not start.  [Wait] is not called on it; the
    streams are still drained and parsed, and the run cannot succeed: it
    returns the error of [Start] unless the parser or the emission of an
    event fails first. *)
Theorem Run_start_failure fw r target params transport
    (proc : Process) (out err : Reader) (e : error) :
  launched fw r target = Some (params, transport, proc, out, err) ->
  Start proc = Some e ->
  ~ In Wait_call (snd (Run fw r target))
  /\ fst (Run fw r target) <> None
  /\ (map EventName (emitted (snd (Run fw r target))) = Events ->
      fst (Run fw r target) = Some e).
Proof.
  intros L Hstart.
  destruct (Run_body_launched fw r target params transport proc out err L) as (Hb & _).
  assert (Hout : execution_outcome proc = Some e).
  { unfold execution_outcome. rewrite Hstart. reflexivity. }
  assert (Hwait : ~ In Wait_call (launch_trace (Target := Target) params proc out err)).
  { intros H. apply In_launch_trace_inv in H.
    destruct H as [H|[H|[H|[H|[[_ H]|[text H]]]]]]; try discriminate.
    rewrite Hstart in H. discriminate. }
  rewrite Run_result, Run_emitted.
  split.
  { intros H. apply Run_remote_calls in H; [|reflexivity]. revert H. rewrite Hb.
    destruct (parseSetOutput _ _) as [x|]; cbn [snd app]; intros [H|[H|H]];
      try discriminate; [exact (Hwait H)|].
    apply in_app_or in H as [H|H]; [exact (Hwait H)|].
    pose proof (emit_both_emission r target (delivered out) (delivered err)
                  (execution_outcome proc)) as E.
    destruct (emit_both r target (delivered out) (delivered err) (execution_outcome proc))
      as [res t]. cbn [fst snd] in E, H.
    inversion E; subst; cbn in H; intuition discriminate. }
  rewrite Hb.
  destruct (parseSetOutput _ _) as [x|]; cbn [fst snd].
  { split; [discriminate|]. unfold emitted. rewrite !omap_app.
    fold (emitted (launch_trace (Target := Target) params proc out err)).
    rewrite emitted_launch_trace. discriminate. }
  pose proof (emit_both_emission r target (delivered out) (delivered err)
                (execution_outcome proc)) as E.
  destruct (emit_both r target (delivered out) (delivered err) (execution_outcome proc))
    as [res t]. cbn [fst snd] in E |- *.
  unfold emitted. rewrite !omap_app.
  fold (emitted (launch_trace (Target := Target) params proc out err)).
  rewrite emitted_launch_trace. cbn [omap list_omap app].
  rewrite Hout in E.
  inversion E; subst; cbn; (split; [discriminate|]); try discriminate.
  reflexivity.
Qed.

(** X9: an unreadable stderr hides the report of the tool.  When the read
    of stderr fails, the run prints the failure and then goes on as if the
    tool had written nothing to stderr: it returns what it returns, and
    hands the emitter what it hands it, for a process that differs only in
    an empty stderr. *)
Theorem runSet_unread_stderr r target transport transport' params
    (proc : Process) (out err : Reader) (x : error) :
  NewProcess transport privileged (argv params) = inr proc ->
  StdoutPipe proc = inr out ->
  StderrPipe proc = inr err ->
  read_error err = Some x ->
  NewProcess transport' privileged (argv params)
  = inr {| StdoutPipe := inr out; StderrPipe := inr []; Start := Start proc;
           Wait := Wait proc |} ->
  let set := runSet r target transport params in
  let set' := runSet r target transport' params in
  fst set = fst set'
  /\ attempted (snd set) = attempted (snd set')
  /\ In (Printf_call ("failed to read from Stderr buffer: " +:+ Error_text x
                        +:+ String "010" EmptyString)) (snd set).
Proof.
  intros Hproc Hout Herr Hx Hproc' set set'. unfold set, set'.
  rewrite (runSet_launched r target transport params proc out err Hproc Hout Herr).
  rewrite (runSet_launched r target transport' params _ out [] Hproc' eq_refl eq_refl).
  assert (Hd : delivered err = []) by (unfold delivered; rewrite Hx; reflexivity).
  rewrite Hd. change (delivered []) with (@nil byte).
  assert (Ho : execution_outcome {| StdoutPipe := inr out; StderrPipe := inr [];
                                    Start := Start proc; Wait := Wait proc |}
               = execution_outcome proc) by reflexivity.
  rewrite Ho.
  assert (Hin : In (Printf_call ("failed to read from Stderr buffer: " +:+ Error_text x
                                   +:+ String "010" EmptyString))
                   (launch_trace (Target := Target) params proc out err)).
  { unfold launch_trace, read_log. rewrite Hx. apply in_or_app. right.
    apply in_or_app. right. apply in_or_app. right. left. reflexivity. }
  destruct (parseSetOutput [] (ShallFail (Parameter_ params))); cbn [fst snd].
  - split; [reflexivity|]. split; [|exact Hin].
    rewrite !attempted_launch_trace. reflexivity.
  - split; [reflexivity|]. split; [|apply in_or_app; left; exact Hin].
    unfold attempted. rewrite !omap_app.
    fold (attempted (launch_trace (Target := Target) params proc out err)).
    fold (attempted (launch_trace (Target := Target) params
                       {| StdoutPipe := inr out; StderrPipe := inr [];
                          Start := Start proc; Wait := Wait proc |} out [])).
    rewrite !attempted_launch_trace. reflexivity.
Qed.
End Run_calls.

(** *** Concrete runs *)

Lemma Run_success_complete_witness :
  let run := scenario.run (scenario.process (bytes_of_string "ok") [] None)
                          (scenario.params "pw" "" "SecureBoot" "Enabled" false)
                          scenario.accepting in
  fst run = None
  /\ In Start_call (snd run) /\ In Wait_call (snd run)
  /\ map EventName (emitted (snd run)) = ["Stdout"; "Stderr"].
Proof.
  intros run.
  assert (H : fst run = None) by (vm_compute; reflexivity).
  split; [exact H|].
  exact (Run_success_complete
           (Error_JSON := Unmarshal_Error)
           (eventPayload_Marshaler := Marshal_eventPayload)
           (scenario.framework
              (scenario.transport_of (scenario.process (bytes_of_string "ok") [] None)))
           (scenario.runner (scenario.params "pw" "" "SecureBoot" "Enabled" false)
                            scenario.accepting)
           "dut01" H).
Defined.

Lemma Run_spawns_privileged_witness :
  let p := scenario.params "" "/root/.ssh/id_rsa" "SecureBoot" "Enabled" false in
  let run := scenario.run (scenario.process [] [] None) p scenario.accepting in
  let args := ["/usr/bin/tool"; "wmi"; "set"; "--option=SecureBoot"; "--value=Enabled";
               "--private-key=/root/.ssh/id_rsa"; "--json"] in
  In (NewProcess_call "sudo" args) (snd run)
  /\ Option_ (Parameter_ p) <> "" /\ Value (Parameter_ p) <> ""
  /\ (Password (Parameter_ p) = "" -> KeyPath (Parameter_ p) <> "").
Proof.
  intros p run args.
  assert (H : In (NewProcess_call "sudo" args) (snd run)) by (vm_compute; find_call).
  split; [exact H|].
  pose proof (Run_spawns_privileged
                (Error_JSON := Unmarshal_Error)
                (eventPayload_Marshaler := Marshal_eventPayload)
                (scenario.framework (scenario.transport_of (scenario.process [] [] None)))
                (scenario.runner p scenario.accepting) "dut01" "sudo" args H) as T.
  cbv zeta in T. exact (proj2 (proj2 T)).
Defined.

Lemma Run_expand_error_returned_witness :
  let p := scenario.params "pw" "" "SecureBoot" "{{ .Missing }}" false in
  let fw := {| Target_String := fun t : string => t;
               ExpandObject := fun _ q => (q, Some (errors_New "no such variable"));
               NewTransport := fun _ _ => inr scenario.unreachable |} in
  let run := Run (Error_JSON := Unmarshal_Error)
                 (eventPayload_Marshaler := Marshal_eventPayload)
                 fw (scenario.runner p scenario.accepting) "dut01" in
  fst run = Some (errors_New "no such variable")
  /\ (forall c, In c (snd run) -> is_remote c = false)
  /\ attempted (snd run) = [].
Proof.
  intros p fw run.
  exact (Run_expand_error_returned
           (Error_JSON := Unmarshal_Error)
           (eventPayload_Marshaler := Marshal_eventPayload)
           fw (scenario.runner p scenario.accepting) "dut01" p
           (errors_New "no such variable") eq_refl).
Defined.

Lemma Run_transport_error_wrapped_witness :
  let p := scenario.params "pw" "" "SecureBoot" "Enabled" false in
  let fw := {| Target_String := fun t : string => t;
               ExpandObject := fun _ q => (q, None);
               NewTransport := fun _ _ => inl (errors_New "no host given") |} in
  let run := Run (Error_JSON := Unmarshal_Error)
                 (eventPayload_Marshaler := Marshal_eventPayload)
                 fw (scenario.runner p scenario.accepting) "dut01" in
  (exists err, fst run = Some err
               /\ errors_Unwrap err = Some (errors_New "no host given")
               /\ Error_text err = "failed to create transport: no host given")
  /\ (forall bin args, ~ In (NewProcess_call bin args) (snd run))
  /\ attempted (snd run) = [].
Proof.
  intros p fw run.
  exact (Run_transport_error_wrapped
           (Error_JSON := Unmarshal_Error)
           (eventPayload_Marshaler := Marshal_eventPayload)
           fw (scenario.runner p scenario.accepting) "dut01" p
           (errors_New "no host given") eq_refl eq_refl eq_refl).
Defined.

Lemma Run_start_failure_witness :
  let proc := {| StdoutPipe := inr (scenario.reader_of []);
                 StderrPipe := inr (scenario.reader_of []);
                 Start := Some (errors_New "exec format error");
                 Wait := None |} in
  let run := scenario.run proc (scenario.params "pw" "" "SecureBoot" "Enabled" false)
                          scenario.accepting in
  ~ In Wait_call (snd run)
  /\ fst run = Some (errors_New "exec format error").
Proof.
  intros proc run.
  pose (p := scenario.params "pw" "" "SecureBoot" "Enabled" false).
  pose proof (Run_start_failure
                (Error_JSON := Unmarshal_Error)
                (eventPayload_Marshaler := Marshal_eventPayload)
                (scenario.framework (scenario.transport_of proc))
                (scenario.runner p scenario.accepting) "dut01" p
                (scenario.transport_of proc) proc
                (scenario.reader_of []) (scenario.reader_of [])
                (errors_New "exec format error") eq_refl eq_refl) as (H1 & _ & H3).
  split; [exact H1|]. apply H3. vm_compute. reflexivity.
Defined.

Lemma runSet_unread_stderr_witness :
  let p := scenario.params "pw" "" "SecureBoot" "Enabled" false in
  let err := scenario.broken_reader (scenario.json_text "{'error':'boom'}")
                                    (errors_New "connection reset") in
  let proc := {| StdoutPipe := inr (scenario.reader_of (bytes_of_string "ok"));
                 StderrPipe := inr err; Start := None; Wait := None |} in
  let silent := {| StdoutPipe := inr (scenario.reader_of (bytes_of_string "ok"));
                   StderrPipe := inr []; Start := None; Wait := None |} in
  let r := scenario.runner p scenario.accepting in
  let runSet := runSet (Target := string) (Error_JSON := Unmarshal_Error)
                       (eventPayload_Marshaler := Marshal_eventPayload) r "dut01" in
  read_error err = Some (errors_New "connection reset")
  /\ fst (runSet (scenario.transport_of proc) p) = (None, None)
  /\ fst (runSet (scenario.transport_of proc) p)
     = fst (runSet (scenario.transport_of silent) p).
Proof.
  intros p err proc silent r runSet.
  assert (Hx : read_error err = Some (errors_New "connection reset")) by reflexivity.
  split; [exact Hx|]. split; [vm_compute; reflexivity|].
  exact (proj1 (runSet_unread_stderr
                  (Error_JSON := Unmarshal_Error)
                  (eventPayload_Marshaler := Marshal_eventPayload)
                  r "dut01" (scenario.transport_of proc) (scenario.transport_of silent) p
                  proc (scenario.reader_of (bytes_of_string "ok")) err
                  (errors_New "connection reset")
                  eq_refl eq_refl eq_refl Hx eq_refl)).
Defined.

(** ** Reading a stream, read by read *)

(** X10: [readBuffer] and the script of the stream.  How the bytes are
    divided among the reads makes no difference, and whatever the stream
    would deliver after a read that returned an error is not asked for. *)
Theorem readBuffer_script (r1 r2 : Reader) (a b : list byte) (o : option error) (e : error) :
  readBuffer (r1 ++ (a, None) :: (b, o) :: r2) = readBuffer (r1 ++ (a ++ b, o) :: r2)
  /\ readBuffer (r1 ++ (a, Some e) :: r2) = readBuffer (r1 ++ [(a, Some e)]).
Proof.
  rewrite !readBuffer_delivered. unfold delivered.
  assert (Hc : content (r1 ++ (a, None) :: (b, o) :: r2) = content (r1 ++ (a ++ b, o) :: r2)
               /\ read_error (r1 ++ (a, None) :: (b, o) :: r2)
                  = read_error (r1 ++ (a ++ b, o) :: r2)
               /\ content (r1 ++ (a, Some e) :: r2) = content (r1 ++ [(a, Some e)])
               /\ read_error (r1 ++ (a, Some e) :: r2) = read_error (r1 ++ [(a, Some e)])).
  { induction r1 as [|[bs [x|]] r1 IH]; cbn [app content read_error].
    - destruct o; rewrite ?app_assoc; repeat split; reflexivity.
    - repeat split; reflexivity.
    - destruct IH as (-> & -> & -> & ->). repeat split; reflexivity. }
  destruct Hc as (-> & -> & -> & ->). split; reflexivity.
Qed.

(** ** Emitting an event *)

Section emitEvent_properties.
Context {Target : Type} {P : Type} {Marshaler_P : json.Marshaler P}.

(** X11: [emitEvent] calls the emitter at most once, with the given name
    and target and the encoded payload, and succeeds exactly when the
    emitter accepted the event.  When it fails, the error wraps its cause:
    the error of the encoder, in which case the emitter was not called, or
    the error of the emitter. *)
Theorem emitEvent_outcome (name : string) (payload : P) (target : Target)
    (e : Emitter Target) :
  let d := {| EventName := name; Target_ := target;
              Payload := fst (json.Marshal payload) |} in
  match fst (emitEvent name payload target e) with
  | None =>
      snd (json.Marshal payload) = None /\ Emit e d = None
      /\ snd (emitEvent name payload target e) = [Emit_call d None]
  | Some err =>
      exists cause,
        errors_Unwrap err = Some cause
        /\ ((snd (json.Marshal payload) = Some cause
             /\ snd (emitEvent name payload target e) = [])
            \/ (snd (json.Marshal payload) = None /\ Emit e d = Some cause
                /\ snd (emitEvent name payload target e) = [Emit_call d (Some cause)]))
  end.
Proof.
  intros d. unfold emitEvent, d.
  destruct (json.Marshal payload) as [data [cause|]]; cbn [fst snd].
  - exists cause. split; [reflexivity|]. left. split; reflexivity.
  - destruct (Emit e _) as [cause|]; cbn [fst snd bind does ret app].
    + exists cause. split; [reflexivity|]. right. auto.
    + auto.
Qed.
End emitEvent_properties.

(** ** The requests of the HTTP client, call by call *)

Section http_calls.
Import url http.
Variable url_Parse : string -> error + URL.
Variable URL_String : URL -> string.
Variable http_PostForm : string -> Values -> error + Response.
Context {State : Type} (State_String : State -> string).
Context {ResponseDataVersion ResponseDataStart ResponseDataStop
         ResponseDataStatus ResponseDataRetry ResponseDataList : Type}.
Context {Version_data : api.ResponseData ResponseDataVersion}
        {Start_data : api.ResponseData ResponseDataStart}
        {Stop_data : api.ResponseData ResponseDataStop}
        {Status_data : api.ResponseData ResponseDataStatus}
        {Retry_data : api.ResponseData ResponseDataRetry}
        {List_data : api.ResponseData ResponseDataList}.
Context {Response_JSON : json.JSON HTTPPartiallyDecodedResponse}
        {HTTPAPIError_JSON : json.JSON httplistener.HTTPAPIError}.

Local Abbreviation request := (request url_Parse URL_String http_PostForm).
Local Abbreviation Version :=
  (Version url_Parse URL_String http_PostForm (Version_data := Version_data)).
Local Abbreviation Start :=
  (Start url_Parse URL_String http_PostForm (Start_data := Start_data)).
Local Abbreviation Stop :=
  (Stop url_Parse URL_String http_PostForm (Stop_data := Stop_data)).
Local Abbreviation Status_ :=
  (Status_ url_Parse URL_String http_PostForm (Status_data := Status_data)).
Local Abbreviation Retry :=
  (Retry url_Parse URL_String http_PostForm (Retry_data := Retry_data)).
Local Abbreviation List_ :=
  (List_ url_Parse URL_String http_PostForm State_String (List_data := List_data)).

(** The calls of a request that gets past the checks of the address. *)
Lemma request_trace (h : HTTP) (requestor verb : string) (params : Values) (u : URL) :
  url_Parse (Addr h) = inr u ->
  Scheme u = "http" \/ Scheme u = "https" ->
  let address := URL_String (verb_url u verb) in
  let form := posted_form requestor params in
  snd (request h requestor verb params)
  = Infof_call form ("Requesting URL " +:+ address +:+ " with requestor ID '"
                       +:+ requestor +:+ "'" +:+ String "010" EmptyString)
      :: PostForm_call address form
      :: match http_PostForm address form with
         | inl _ => []
         | inr resp =>
             match snd (ioutil_ReadAll (Body resp)) with
             | Some _ => []
             | None => [Infof_call ∅ ("The server responded with status " +:+ Status resp
                                        +:+ String "010" EmptyString)]
             end ++ [Close_call]
         end.
Proof.
  intros Hu Hscheme address form. unfold http.request. rewrite Hu.
  assert (String.eqb (Scheme u) "" = false) as ->.
  { apply String.eqb_neq. destruct Hscheme as [-> | ->]; discriminate. }
  assert (negb (String.eqb (Scheme u) "http") && negb (String.eqb (Scheme u) "https")
          = false) as ->.
  { destruct Hscheme as [-> | ->]; reflexivity. }
  fold (verb_url u verb). fold (posted_form requestor params). fold address form.
  rewrite !snd_bind. cbn [does snd app]. do 2 f_equal.
  destruct (http_PostForm address form) as [e|resp]; [reflexivity|].
  rewrite !snd_bind. cbn [does ret snd app]. rewrite ?app_nil_r. f_equal.
  destruct (ioutil_ReadAll (Body resp)) as [body [e|]]; [reflexivity|].
  cbn [snd]. rewrite snd_bind. cbn [does snd].
  destruct (StatusCode resp =? StatusOK)%Z.
  - destruct (json.Unmarshal body _) as [apiResp [e|]]; reflexivity.
  - destruct (json.Unmarshal body _) as [apiErr [e|]]; reflexivity.
Qed.

(** A request that does not get past them calls nothing. *)
Lemma request_no_calls (h : HTTP) (requestor verb : string) (params : Values) :
  match url_Parse (Addr h) with
  | inr u => Scheme u <> "http" /\ Scheme u <> "https"
  | inl _ => True
  end ->
  snd (request h requestor verb params) = [].
Proof.
  unfold http.request. destruct (url_Parse (Addr h)) as [e|u]; [reflexivity|].
  intros [H1 H2]. apply String.eqb_neq in H1, H2.
  destruct (String.eqb (Scheme u) ""); [reflexivity|]. rewrite H1, H2. reflexivity.
Qed.

(** The verb methods add no call to those of their request. *)
Lemma verbs_trace (h : HTTP) (requestor jobDescriptor : string) (jobID : Z)
    (states : list State) (tags : list string) :
  snd (Version h requestor) = snd (request h requestor "version" ∅)
  /\ snd (Start h requestor jobDescriptor)
     = snd (request h requestor "start" (Add ∅ "jobDesc" jobDescriptor))
  /\ snd (Stop h requestor jobID)
     = snd (request h requestor "stop" (Add ∅ "jobID" (Itoa (int jobID))))
  /\ snd (Status_ h requestor jobID)
     = snd (request h requestor "status" (Add ∅ "jobID" (Itoa (int jobID))))
  /\ snd (Retry h requestor jobID)
     = snd (request h requestor "retry" (Add ∅ "jobID" (Itoa (int jobID))))
  /\ snd (List_ h requestor states tags)
     = snd (request h requestor "list"
              (let params : Values :=
                 if (0 <? length states)%nat
                 then Set_ ∅ "states" (String.concat "," (map State_String states))
                 else ∅ in
               if (0 <? length tags)%nat
               then Set_ params "tags" (String.concat "," tags)
               else params)).
Proof.
  repeat split;
    [ unfold http.Version | unfold http.Start | unfold http.Stop
    | unfold http.Status_ | unfold http.Retry | unfold http.List_ ];
    cbv zeta; rewrite snd_bind;
    match goal with
    | |- context [http.request ?a ?b ?c ?d ?e ?f ?g] =>
        destruct (http.request a b c d e f g) as [[[resp|] [err|]] t]
    end; cbn [fst snd ret]; rewrite ?app_nil_r; try reflexivity;
    match goal with
    | |- context [if ?c then _ else _] => destruct c
    end;
    try match goal with
    | |- context [json.Unmarshal ?b ?d] => destruct (json.Unmarshal b d) as [? [?|]]
    end; cbn [snd ret]; rewrite ?app_nil_r; reflexivity.
Qed.

Ltac verb_cases :=
  match goal with
  | |- context [http.request ?a ?b ?c ?d ?e ?f ?g] =>
      pose proof (request_response_or_error a b c d e f g) as Hone;
      destruct (fst (http.request a b c d e f g)) as [[resp|] [err|]]
  end.

(** X12: every verb method returns a response or an error, never both and
    never neither, whatever the server, the decoders and the address. *)
Theorem verbs_one_result (h : HTTP) (requestor jobDescriptor : string) (jobID : Z)
    (states : list State) (tags : list string) :
  one_result (fst (Version h requestor))
  /\ one_result (fst (Start h requestor jobDescriptor))
  /\ one_result (fst (Stop h requestor jobID))
  /\ one_result (fst (Status_ h requestor jobID))
  /\ one_result (fst (Retry h requestor jobID))
  /\ one_result (fst (List_ h requestor states tags)).
Proof.
  repeat split;
    [ unfold http.Version | unfold http.Start | unfold http.Stop
    | unfold http.Status_ | unfold http.Retry | unfold http.List_ ];
    cbv zeta; rewrite fst_bind; verb_cases; try contradiction; try exact I;
    cbn [Data];
    match goal with
    | |- context [if ?c then _ else _] => destruct c
    end;
    try match goal with
    | |- context [json.Unmarshal ?b ?d] => destruct (json.Unmarshal b d) as [? [?|]]
    end; exact I.
Qed.

(** A form is posted only after the checks of the address, to the
    address of the verb, with the requestor set. *)
Lemma request_posted (h : HTTP) (requestor verb : string) (params : Values)
    (address : string) (form : Values) :
  In (PostForm_call address form) (snd (request h requestor verb params)) ->
  (exists u, url_Parse (Addr h) = inr u
             /\ (Scheme u = "http" \/ Scheme u = "https")
             /\ address = URL_String (verb_url u verb))
  /\ form = posted_form requestor params.
Proof.
  intros H.
  destruct (url_Parse (Addr h)) as [e|u] eqn:Hu.
  { rewrite request_no_calls in H; [destruct H | rewrite Hu; exact I]. }
  destruct (String.eqb_spec (Scheme u) "http") as [H1|H1];
    [|destruct (String.eqb_spec (Scheme u) "https") as [H2|H2]].
  3:{ rewrite request_no_calls in H; [destruct H | rewrite Hu; auto]. }
  all: rewrite (request_trace h requestor verb params u Hu) in H by auto;
    destruct H as [H|[H|H]]; try discriminate;
    [ injection H as <- <-; split; [exists u; auto | reflexivity]
    | destruct (http_PostForm _ _) as [?|resp]; [destruct H|];
      apply in_app_or in H as [H|[H|[]]]; [|discriminate];
      destruct (snd (ioutil_ReadAll (Body resp))); [destruct H|];
      destruct H as [H|[]]; discriminate ].
Qed.

(** X13: what a request posts, and where.  A form is posted only to an
    address with the scheme http or https, namely to the base address with
    the verb appended to its path; the form carries the requestor given to
    the method, also when the caller's values had one, and the caller's
    values otherwise. *)
Theorem request_posts_form (h : HTTP) (requestor verb : string) (params : Values)
    (address : string) (form : Values) :
  In (PostForm_call address form) (snd (request h requestor verb params)) ->
  (exists u, url_Parse (Addr h) = inr u
             /\ (Scheme u = "http" \/ Scheme u = "https")
             /\ address = URL_String {| Scheme := Scheme u;
                                        Path := Path u +:+ "/" +:+ verb;
                                        rest := rest u |})
  /\ form !! "requestor" = Some [requestor]
  /\ forall key, key <> "requestor" -> form !! key = params !! key.
Proof.
  intros H. destruct (request_posted h requestor verb params address form H) as (Hu & ->).
  split; [exact Hu|]. unfold posted_form, Set_. split.
  - apply lookup_insert_eq.
  - intros key Hk. apply lookup_insert_ne. congruence.
Qed.

(** X14: the body of an answer is closed.  [request] closes the body of the
    response exactly when [http.PostForm] returned one, on every path that
    follows, and as the last thing it does. *)
Theorem request_closes_body (h : HTTP) (requestor verb : string) (params : Values) :
  let t := snd (request h requestor verb params) in
  (In Close_call t
   <-> exists address form resp,
         In (PostForm_call address form) t /\ http_PostForm address form = inr resp)
  /\ (In Close_call t -> exists t', t = t' ++ [Close_call] /\ ~ In Close_call t').
Proof.
  intros t. unfold t.
  destruct (url_Parse (Addr h)) as [e|u] eqn:Hu.
  { rewrite request_no_calls by (rewrite Hu; exact I).
    split; [split; [intros []|intros (? & ? & ? & [] & _)] | intros []]. }
  destruct (String.eqb_spec (Scheme u) "http") as [H1|H1];
    [|destruct (String.eqb_spec (Scheme u) "https") as [H2|H2]].
  3:{ rewrite request_no_calls by (rewrite Hu; auto).
      split; [split; [intros []|intros (? & ? & ? & [] & _)] | intros []]. }
  all: rewrite (request_trace h requestor verb params u Hu) by auto; cbv zeta;
    destruct (http_PostForm (URL_String (verb_url u verb))
                (posted_form requestor params)) as [e|resp] eqn:Hpost;
    [ split; [split|];
      [ intros [?|[?|[]]]; discriminate
      | intros (a & f & resp & [?|[Hin|[]]] & Hr); [discriminate|];
        injection Hin as <- <-; congruence
      | intros [?|[?|[]]]; discriminate ]
    | split; [split|];
      [ intros _; do 3 eexists; split; [right; left; reflexivity | exact Hpost]
      | intros _; do 2 right; apply in_or_app; right; left; reflexivity
      | intros _;
        eexists (_ :: _ :: match snd (ioutil_ReadAll (Body resp)) with
                           | Some _ => []
                           | None => [_]
                           end);
        split; [reflexivity|];
        intros [?|[?|Hin]]; try discriminate;
        destruct (snd (ioutil_ReadAll (Body resp))); [destruct Hin|];
        destruct Hin as [?|[]]; discriminate ] ].
Qed.

(** X15: a body that cannot be read.  When reading the body of the answer
    fails, the request fails with the read error whatever the status of
    the answer, what was read is dropped, and the body is closed all the
    same. *)
Theorem request_read_failure (h : HTTP) (requestor verb : string) (params : Values)
    (u : URL) (resp : Response) (partial : list byte) (e : error) :
  url_Parse (Addr h) = inr u ->
  Scheme u = "http" \/ Scheme u = "https" ->
  http_PostForm (URL_String (verb_url u verb)) (posted_form requestor params) = inr resp ->
  ioutil_ReadAll (Body resp) = (partial, Some e) ->
  fst (request h requestor verb params)
  = (None, Some (errors_New ("cannot read HTTP response: " +:+ Error_text e)))
  /\ In Close_call (snd (request h requestor verb params)).
Proof.
  intros Hu Hscheme Hpost Hbody. split.
  - unfold http.request. rewrite Hu.
    assert (String.eqb (Scheme u) "" = false) as ->.
    { apply String.eqb_neq. destruct Hscheme as [-> | ->]; discriminate. }
    assert (negb (String.eqb (Scheme u) "http") && negb (String.eqb (Scheme u) "https")
            = false) as ->.
    { destruct Hscheme as [-> | ->]; reflexivity. }
    fold (verb_url u verb). fold (posted_form requestor params).
    rewrite !fst_bind. cbn [does ret fst]. rewrite Hpost.
    rewrite !fst_bind. cbn [ret fst]. rewrite Hbody. reflexivity.
  - rewrite (request_trace h requestor verb params u Hu Hscheme). cbv zeta.
    rewrite Hpost. do 2 right. apply in_or_app. right. left. reflexivity.
Qed.

(** X16: the forms of the verbs.  Besides the requestor, [Start] posts the
    job descriptor, [Stop], [Status] and [Retry] post the job identifier
    in decimal, as the signed number that its 64 bits denote, [Version]
    posts nothing else, and [List] posts the names of the states and the
    tags, each joined by commas, and leaves out the one that is empty. *)
Theorem verbs_forms (h : HTTP) (requestor jobDescriptor : string) (jobID : Z)
    (states : list State) (tags : list string) (address : string) (form : Values) :
  (In (PostForm_call address form) (snd (Version h requestor)) ->
   form = {["requestor" := [requestor]]})
  /\ (In (PostForm_call address form) (snd (Start h requestor jobDescriptor)) ->
      form = <["requestor" := [requestor]]> {["jobDesc" := [jobDescriptor]]})
  /\ (In (PostForm_call address form) (snd (Stop h requestor jobID)) ->
      form = <["requestor" := [requestor]]> {["jobID" := [Itoa (int jobID)]]})
  /\ (In (PostForm_call address form) (snd (Status_ h requestor jobID)) ->
      form = <["requestor" := [requestor]]> {["jobID" := [Itoa (int jobID)]]})
  /\ (In (PostForm_call address form) (snd (Retry h requestor jobID)) ->
      form = <["requestor" := [requestor]]> {["jobID" := [Itoa (int jobID)]]})
  /\ (In (PostForm_call address form) (snd (List_ h requestor states tags)) ->
      form !! "requestor" = Some [requestor]
      /\ form !! "states"
         = match states with
           | [] => None
           | _ => Some [String.concat "," (map State_String states)]
           end
      /\ form !! "tags"
         = match tags with [] => None | _ => Some [String.concat "," tags] end
      /\ forall key, key <> "requestor" -> key <> "states" -> key <> "tags" ->
                     form !! key = None).
Proof.
  pose proof (verbs_trace h requestor jobDescriptor jobID states tags)
    as (-> & -> & -> & -> & -> & ->).
  repeat apply conj; intros H; apply request_posted in H as (_ & ->);
    unfold posted_form, Set_, Add; rewrite ?lookup_empty; cbn [default app];
    try (rewrite ?insert_empty; reflexivity).
  cbv zeta. split; [apply lookup_insert_eq|].
  destruct states as [|s states]; destruct tags as [|t tags]; cbn [length Nat.ltb Nat.leb];
    (split; [|split]);
    try (intros key H1 H2 H3);
    rewrite ?lookup_insert_ne by congruence;
    rewrite ?lookup_insert_eq;
    rewrite ?lookup_insert_ne by congruence;
    rewrite ?lookup_insert_eq;
    rewrite ?lookup_empty; reflexivity.
Qed.

(** X17: the typed data of an answer.  When the server answers with status
    200 and a response whose [Data] is not empty, every verb method hands
    [Data] to the decoder of its own type: it returns the decoded data with
    the [ServerID] and the [Error] of the response, or, when the decoder
    fails, the decode error and no response. *)
Theorem verbs_decode_data (h : HTTP) (requestor jobDescriptor : string)
    (jobID : Z) (states : list State) (tags : list string)
    (u : URL) (resp : Response) (body : list byte)
    (apiResp : HTTPPartiallyDecodedResponse) :
  url_Parse (Addr h) = inr u ->
  Scheme u = "http" \/ Scheme u = "https" ->
  (forall address form, http_PostForm address form = inr resp) ->
  StatusCode resp = StatusOK ->
  ioutil_ReadAll (Body resp) = (body, None) ->
  json.Unmarshal body {| ServerID := ""; Type_ := ""; Data := []; Error := None |}
  = (apiResp, None) ->
  Data apiResp <> [] ->
  let decoded (D : Type) (data : api.ResponseData D)
    : option (api.Response D) * option error :=
    match json.Unmarshal (Data apiResp) api.zero with
    | (data, None) =>
        (Some {| api.ServerID := ServerID apiResp; api.Data := data;
                 api.Err := Error apiResp |}, None)
    | (_, Some e) =>
        (None, Some (errors_New ("cannot decode json response: " +:+ Error_text e)))
    end in
  fst (Version h requestor) = decoded _ Version_data
  /\ fst (Start h requestor jobDescriptor) = decoded _ Start_data
  /\ fst (Stop h requestor jobID) = decoded _ Stop_data
  /\ fst (Status_ h requestor jobID) = decoded _ Status_data
  /\ fst (Retry h requestor jobID) = decoded _ Retry_data
  /\ fst (List_ h requestor states tags) = decoded _ List_data.
Proof.
  intros Hu Hscheme Hpost Hstatus Hbody Hdec Hdata decoded.
  apply Z.eqb_eq in Hstatus.
  assert (Hreq : forall verb params,
             fst (request h requestor verb params) = (Some apiResp, None)).
  { intros verb params.
    rewrite (request_answered url_Parse URL_String http_PostForm
               h requestor verb params u resp body Hu Hscheme Hpost Hbody).
    rewrite Hstatus, Hdec. reflexivity. }
  assert (Hne : String.eqb (string_of_bytes (Data apiResp)) "" = false).
  { destruct (Data apiResp) as [|b bs]; [congruence|]. reflexivity. }
  repeat split;
    [ unfold http.Version | unfold http.Start | unfold http.Stop
    | unfold http.Status_ | unfold http.Retry | unfold http.List_ ];
    cbv zeta; rewrite fst_bind, Hreq, Hne; cbn [negb]; unfold decoded;
    match goal with
    | |- context [json.Unmarshal ?b ?d] => destruct (json.Unmarshal b d) as [? [?|]]
    end; reflexivity.
Qed.
End http_calls.

(** ** The job identifier on the wire *)

Lemma Itoa_inj (i j : Z) : http.Itoa i = http.Itoa j -> i = j.
Proof.
  unfold http.Itoa. intros H.
  assert (Hnil : forall z, Z.to_int z <> Decimal.Pos Decimal.Nil
                           /\ Z.to_int z <> Decimal.Neg Decimal.Nil).
  { intros z. pose proof (DecimalZ.to_of (Z.to_int z)) as N.
    rewrite DecimalZ.of_to in N.
    split; intros Hz; rewrite Hz in N; discriminate N. }
  apply (f_equal NilZero.int_of_string) in H.
  rewrite !NilZero.isi in H by apply Hnil.
  injection H as H. apply (f_equal Z.of_int) in H.
  rewrite !DecimalZ.of_to in H. exact H.
Qed.

(** X18: the job identifier as it is posted.  A job identifier is an
    unsigned 64-bit number, posted after a conversion to a signed one:
    below 2^63 it is posted as it is, from 2^63 on it is posted as the
    negative number 2^64 less; distinct identifiers are posted as distinct
    texts. *)
Theorem jobID_posted (j k : Z) :
  (0 <= j < 2 ^ 64)%Z -> (0 <= k < 2 ^ 64)%Z ->
  (j < 2 ^ 63 -> http.int j = j)%Z
  /\ (2 ^ 63 <= j -> http.int j = j - 2 ^ 64 /\ http.int j < 0)%Z
  /\ (http.Itoa (http.int j) = http.Itoa (http.int k) -> j = k).
Proof.
  intros Hj Hk. unfold http.int.
  assert (Hint : forall x, (0 <= x < 2 ^ 64)%Z ->
                           ((x + 2 ^ 63) mod 2 ^ 64 - 2 ^ 63
                            = if (x <? 2 ^ 63)%Z then x else x - 2 ^ 64)%Z).
  { intros x Hx. destruct (Z.ltb_spec x (2 ^ 63)) as [Hlt|Hge].
    - rewrite Z.mod_small by lia. lia.
    - replace (x + 2 ^ 63)%Z with ((x - 2 ^ 63) + 1 * 2 ^ 64)%Z by lia.
      rewrite Z.mod_add by lia. rewrite Z.mod_small by lia. lia. }
  rewrite (Hint j Hj), (Hint k Hk).
  split; [|split].
  - intros Hlt. apply Z.ltb_lt in Hlt. rewrite Hlt. reflexivity.
  - intros Hge. apply Z.ltb_ge in Hge. rewrite Hge. lia.
  - intros H. apply Itoa_inj in H.
    destruct (Z.ltb_spec j (2 ^ 63)); destruct (Z.ltb_spec k (2 ^ 63)); lia.
Qed.

(** *** Concrete requests *)

Lemma request_posts_form_witness :
  let h := {| http.Addr := "http://contest.example:8080" |} in
  let params : url.Values := {["requestor" := ["someone else"]]} in
  let form : url.Values := {["requestor" := ["me"]]} in
  In (http.PostForm_call "http://contest.example:8080/status" form)
     (snd (http.request http_scenario.url_Parse http_scenario.URL_String
             (http_scenario.server 200 [])
             (Response_JSON := http.Unmarshal_HTTPPartiallyDecodedResponse
                                 http_scenario.xjson_UnmarshalJSON)
             (HTTPAPIError_JSON := httplistener.Unmarshal_HTTPAPIError)
             h "me" "status" params))
  /\ form !! "requestor" = Some ["me"].
Proof.
  intros h params form.
  assert (H : In (http.PostForm_call "http://contest.example:8080/status" form)
                 (snd (http.request http_scenario.url_Parse http_scenario.URL_String
                         (http_scenario.server 200 [])
                         (Response_JSON := http.Unmarshal_HTTPPartiallyDecodedResponse
                                             http_scenario.xjson_UnmarshalJSON)
                         (HTTPAPIError_JSON := httplistener.Unmarshal_HTTPAPIError)
                         h "me" "status" params)))
    by (vm_compute; right; left; reflexivity).
  split; [exact H|].
  exact (proj1 (proj2 (request_posts_form
                         http_scenario.url_Parse http_scenario.URL_String
                         (http_scenario.server 200 [])
                         (Response_JSON := http.Unmarshal_HTTPPartiallyDecodedResponse
                                             http_scenario.xjson_UnmarshalJSON)
                         (HTTPAPIError_JSON := httplistener.Unmarshal_HTTPAPIError)
                         h "me" "status" params _ form H))).
Defined.

Lemma request_read_failure_witness :
  let h := {| http.Addr := "https://contest.example" |} in
  let resp := {| http.Status := "200 OK"; http.StatusCode := 200;
                 http.Body := scenario.broken_reader (scenario.json_text "{'ServerID':")
                                                     (errors_New "connection reset") |} in
  let req := http.request http_scenario.url_Parse http_scenario.URL_String
               (fun _ _ => inr resp)
               (Response_JSON := http.Unmarshal_HTTPPartiallyDecodedResponse
                                   http_scenario.xjson_UnmarshalJSON)
               (HTTPAPIError_JSON := httplistener.Unmarshal_HTTPAPIError)
               h "me" "version" ∅ in
  fst req = (None, Some (errors_New "cannot read HTTP response: connection reset"))
  /\ In http.Close_call (snd req).
Proof.
  intros h resp req.
  exact (request_read_failure
           http_scenario.url_Parse http_scenario.URL_String (fun _ _ => inr resp)
           (Response_JSON := http.Unmarshal_HTTPPartiallyDecodedResponse
                               http_scenario.xjson_UnmarshalJSON)
           (HTTPAPIError_JSON := httplistener.Unmarshal_HTTPAPIError)
           h "me" "version" ∅
           {| url.Scheme := "https"; url.Path := ""; url.rest := "//contest.example" |}
           resp (scenario.json_text "{'ServerID':") (errors_New "connection reset")
           eq_refl (or_intror eq_refl) eq_refl eq_refl).
Defined.

Lemma verbs_forms_witness :
  let h := {| http.Addr := "http://contest.example:8080" |} in
  let form : url.Values :=
    <["requestor" := ["me"]]> {["jobID" := ["-9223372036854775808"]]} in
  In (http.PostForm_call "http://contest.example:8080/stop" form)
     (snd (http.Stop http_scenario.url_Parse http_scenario.URL_String
             (http_scenario.server 200 [])
             (Stop_data := http_scenario.undecodable)
             (Response_JSON := http.Unmarshal_HTTPPartiallyDecodedResponse
                                 http_scenario.xjson_UnmarshalJSON)
             (HTTPAPIError_JSON := httplistener.Unmarshal_HTTPAPIError)
             h "me" (2 ^ 63)))
  /\ form = <["requestor" := ["me"]]> {["jobID" := [http.Itoa (http.int (2 ^ 63))]]}.
Proof.
  intros h form.
  assert (H : In (http.PostForm_call "http://contest.example:8080/stop" form)
                 (snd (http.Stop http_scenario.url_Parse http_scenario.URL_String
                         (http_scenario.server 200 [])
                         (Stop_data := http_scenario.undecodable)
                         (Response_JSON := http.Unmarshal_HTTPPartiallyDecodedResponse
                                             http_scenario.xjson_UnmarshalJSON)
                         (HTTPAPIError_JSON := httplistener.Unmarshal_HTTPAPIError)
                         h "me" (2 ^ 63))))
    by (vm_compute; right; left; reflexivity).
  split; [exact H|].
  exact (proj1 (proj2 (proj2 (verbs_forms
                  http_scenario.url_Parse http_scenario.URL_String
                  (http_scenario.server 200 []) http_scenario.job_State_String
                  (Version_data := http_scenario.undecodable)
                  (Start_data := http_scenario.undecodable)
                  (Stop_data := http_scenario.undecodable)
                  (Status_data := http_scenario.undecodable)
                  (Retry_data := http_scenario.undecodable)
                  (List_data := http_scenario.undecodable)
                  (Response_JSON := http.Unmarshal_HTTPPartiallyDecodedResponse
                                      http_scenario.xjson_UnmarshalJSON)
                  (HTTPAPIError_JSON := httplistener.Unmarshal_HTTPAPIError)
                  h "me" "" (2 ^ 63)%Z [] [] _ form))) H).
Defined.

Lemma verbs_decode_data_witness :
  let h := {| http.Addr := "https://contest.example" |} in
  let body := scenario.json_text
                "{'ServerID':'srv-1','Type':'version','Data':{'Version':3},'Error':null}" in
  let raw : api.ResponseData (list byte) :=
    {| api.zero := []; api.ResponseData_JSON := fun b _ => (b, None) |} in
  fst (http.Version http_scenario.url_Parse http_scenario.URL_String
         (http_scenario.server 200 body)
         (Version_data := raw)
         (Response_JSON := http.Unmarshal_HTTPPartiallyDecodedResponse
                             http_scenario.xjson_UnmarshalJSON)
         (HTTPAPIError_JSON := httplistener.Unmarshal_HTTPAPIError)
         h "me")
  = (Some {| api.ServerID := "srv-1"; api.Data := scenario.json_text "{'Version':3}";
             api.Err := None |}, None).
Proof.
  intros h body raw.
  assert (Hdec : json.Unmarshal
                   (JSON := http.Unmarshal_HTTPPartiallyDecodedResponse
                              http_scenario.xjson_UnmarshalJSON) body
                   {| http.ServerID := ""; http.Type_ := ""; http.Data := [];
                      http.Error := None |}
                 = ({| http.ServerID := "srv-1"; http.Type_ := "version";
                       http.Data := scenario.json_text "{'Version':3}";
                       http.Error := None |}, None))
    by (vm_compute; reflexivity).
  assert (Hdata : scenario.json_text "{'Version':3}" <> []) by (vm_compute; discriminate).
  pose proof (verbs_decode_data
                http_scenario.url_Parse http_scenario.URL_String
                (http_scenario.server 200 body) http_scenario.job_State_String
                (Version_data := raw)
                (Start_data := http_scenario.undecodable)
                (Stop_data := http_scenario.undecodable)
                (Status_data := http_scenario.undecodable)
                (Retry_data := http_scenario.undecodable)
                (List_data := http_scenario.undecodable)
                (Response_JSON := http.Unmarshal_HTTPPartiallyDecodedResponse
                                    http_scenario.xjson_UnmarshalJSON)
                (HTTPAPIError_JSON := httplistener.Unmarshal_HTTPAPIError)
                h "me" "" 0%Z [] []
                {| url.Scheme := "https"; url.Path := ""; url.rest := "//contest.example" |}
                {| http.Status := http.Itoa 200; http.StatusCode := 200;
                   http.Body := scenario.reader_of body |}
                body _
                eq_refl (or_intror eq_refl) (fun _ _ => eq_refl) eq_refl eq_refl Hdec Hdata)
    as H.
  exact (proj1 H).
Defined.

Lemma jobID_posted_witness :
  (http.int (2 ^ 64 - 1) = 2 ^ 64 - 1 - 2 ^ 64)%Z /\ (http.int (2 ^ 64 - 1) < 0)%Z.
Proof.
  assert (H1 : (0 <= 2 ^ 64 - 1 < 2 ^ 64)%Z) by (vm_compute; split; congruence).
  assert (H2 : (0 <= 1 < 2 ^ 64)%Z) by (vm_compute; split; congruence).
  assert (H3 : (2 ^ 63 <= 2 ^ 64 - 1)%Z) by (vm_compute; congruence).
  exact (proj1 (proj2 (jobID_posted (2 ^ 64 - 1) 1 H1 H2)) H3).
Defined.

(** ** The HSI step: its parameters *)

Section populateParams_properties.
Context {TestStepParameters Param : Type}.
Variable GetOne : TestStepParameters -> string -> Param.
Variable IsEmpty : Param -> bool.
Variable JSON : Param -> list byte.
Variable transport_Keyword : string.

Local Abbreviation ValidateParameters :=
  (hsi.ValidateParameters GetOne IsEmpty JSON transport_Keyword
     (Parameters_JSON := hsi.Unmarshal_Parameters)).

(** X19: a transport parameter that is missing or malformed.  When the
    transport parameter is empty, or is not well-formed JSON, the
    validation of the parameters fails and the step keeps the transport
    it had. *)
Theorem ValidateParameters_rejected (ts : hsi.TestStep) (params : TestStepParameters) :
  IsEmpty (GetOne params transport_Keyword) = true
  \/ (exists e, json.parse (JSON (GetOne params transport_Keyword)) = inl e) ->
  fst (ValidateParameters ts params) = ts
  /\ snd (ValidateParameters ts params) <> None.
Proof.
  unfold hsi.ValidateParameters, hsi.populateParams. cbv zeta.
  destruct (IsEmpty (GetOne params transport_Keyword)) eqn:E.
  { intros _. split; [reflexivity | discriminate]. }
  intros [H|[e H]]; [discriminate|].
  unfold json.Unmarshal, hsi.Unmarshal_Parameters, json.Unmarshal_struct. rewrite H.
  destruct ts as [t]. split; [reflexivity | discriminate].
Qed.

(** X20: what the validation accepts.  The parameters are accepted only
    when the transport parameter is not empty and is well-formed JSON
    whose value is [null], in which case the step keeps the transport it
    had, or an object. *)
Theorem ValidateParameters_accepted (ts : hsi.TestStep) (params : TestStepParameters) :
  snd (ValidateParameters ts params) = None ->
  IsEmpty (GetOne params transport_Keyword) = false
  /\ ((json.parse (JSON (GetOne params transport_Keyword)) = inr json.JNull
       /\ fst (ValidateParameters ts params) = ts)
      \/ exists members,
           json.parse (JSON (GetOne params transport_Keyword)) = inr (json.JObject members)).
Proof.
  unfold hsi.ValidateParameters, hsi.populateParams. cbv zeta.
  destruct (IsEmpty (GetOne params transport_Keyword)) eqn:E; [discriminate|].
  unfold json.Unmarshal, hsi.Unmarshal_Parameters, json.Unmarshal_struct.
  destruct (json.parse (JSON (GetOne params transport_Keyword))) as [e|v];
    [discriminate|].
  destruct v; try discriminate.
  - intros _. split; [reflexivity|]. left. destruct ts as [t]. split; reflexivity.
  - intros _. split; [reflexivity|]. right. eexists. reflexivity.
Qed.
(** Members that address no field are skipped. *)
Lemma decode_members_unaddressed {T : Type} (struct_ : string) (fields : list (json.field T))
    (input : string) (ms : list json.member) (dst : T) (saved : option error) :
  Forall (fun m : json.member => json.find_field fields (fst (fst m)) = None) ms ->
  json.decode_members struct_ fields input ms dst saved = (dst, saved).
Proof.
  induction 1 as [|[[key [start stop]] v] ms Hm _ IH]; [reflexivity|].
  cbn [json.decode_members]. cbn [fst] in Hm. rewrite Hm. exact IH.
Qed.

(** A key that is no field name under folding addresses no field. *)
Lemma find_field_Parameters_None (key : string) :
  json.equalFold "proto" key = false -> json.equalFold "options" key = false ->
  json.find_field hsi.Parameters_fields key = None.
Proof.
  intros H1 H2. unfold json.find_field, hsi.Parameters_fields.
  cbn [List.find json.name json.string_field json.RawMessage_field].
  destruct (String.eqb_spec "proto" key) as [<-|_]; [discriminate H1|].
  destruct (String.eqb_spec "options" key) as [<-|_]; [discriminate H2|].
  rewrite H1, H2. reflexivity.
Qed.

Lemma find_field_Parameters_proto (key : string) :
  json.equalFold "proto" key = true ->
  exists set, json.find_field hsi.Parameters_fields key = Some (json.string_field "proto" set).
Proof.
  intros H. unfold json.find_field, hsi.Parameters_fields.
  cbn [List.find json.name json.string_field json.RawMessage_field].
  destruct (String.eqb_spec "proto" key) as [<-|_]; [eexists; reflexivity|].
  destruct (String.eqb_spec "options" key) as [<-|_]; [discriminate H|].
  rewrite H. eexists; reflexivity.
Qed.

(** The fields of the transport never stop the decoder, and a type error
    noted once stays. *)
Lemma decode_members_Parameters_saved (input : string) (ms : list json.member)
    (dst : hsi.Parameters) (e : error) :
  snd (json.decode_members "Parameters" hsi.Parameters_fields input ms dst (Some e))
  = Some e.
Proof.
  revert dst. induction ms as [|[[key [start stop]] v] ms IH]; intros dst; [reflexivity|].
  cbn [json.decode_members].
  destruct (json.find_field hsi.Parameters_fields key) as [f|] eqn:Hf; [|apply IH].
  assert (Hin : In f hsi.Parameters_fields).
  { unfold json.find_field in Hf.
    destruct (List.find _ hsi.Parameters_fields) as [g|] eqn:Hg.
    - injection Hf as <-. exact (proj1 (List.find_some _ _ Hg)).
    - exact (proj1 (List.find_some _ _ Hf)). }
  destruct Hin as [<-|[<-|[]]]; cbn [json.store json.string_field json.RawMessage_field].
  - destruct v; apply IH.
  - apply IH.
Qed.

Lemma decode_members_Parameters_mismatch (input : string) (ms : list json.member)
    (dst : hsi.Parameters) (saved : option error)
    (key : string) (span : nat * nat) (v : json.value) :
  In (key, span, v) ms ->
  json.equalFold "proto" key = true ->
  match v with json.JString _ | json.JNull => False | _ => True end ->
  snd (json.decode_members "Parameters" hsi.Parameters_fields input ms dst saved) <> None.
Proof.
  intros Hin Hkey Hv. revert dst saved.
  induction ms as [|[[key' [start stop]] v'] ms IH]; intros dst saved; [destruct Hin|].
  cbn [json.decode_members].
  destruct Hin as [Heq|Hin].
  - injection Heq as -> _ ->.
    destruct (find_field_Parameters_proto key Hkey) as [set ->].
    cbn [json.store json.string_field].
    destruct v; try contradiction;
      (destruct saved as [e|]; rewrite decode_members_Parameters_saved; discriminate).
  - destruct (json.find_field hsi.Parameters_fields key') as [f|] eqn:Hf; [|apply IH, Hin].
    assert (Hf' : In f hsi.Parameters_fields).
    { unfold json.find_field in Hf.
      destruct (List.find _ hsi.Parameters_fields) as [g|] eqn:Hg.
      - injection Hf as <-. exact (proj1 (List.find_some _ _ Hg)).
      - exact (proj1 (List.find_some _ _ Hf)). }
    destruct Hf' as [<-|[<-|[]]]; cbn [json.store json.string_field json.RawMessage_field].
    + destruct v'; apply IH, Hin.
    + apply IH, Hin.
Qed.

(** X23: keys that name no field.  An object none of whose keys is
    [proto] or [options], letter case aside, passes the validation and
    changes nothing: a misspelt key is accepted without a word. *)
Theorem ValidateParameters_unknown_keys (ts : hsi.TestStep) (params : TestStepParameters)
    (members : list json.member) :
  IsEmpty (GetOne params transport_Keyword) = false ->
  json.parse (JSON (GetOne params transport_Keyword)) = inr (json.JObject members) ->
  Forall (fun m : json.member =>
            json.equalFold "proto" (fst (fst m)) = false
            /\ json.equalFold "options" (fst (fst m)) = false) members ->
  ValidateParameters ts params = (ts, None).
Proof.
  intros He Hp Hkeys.
  unfold hsi.ValidateParameters, hsi.populateParams. cbv zeta. rewrite He.
  unfold json.Unmarshal, hsi.Unmarshal_Parameters, json.Unmarshal_struct. rewrite Hp.
  rewrite decode_members_unaddressed.
  - destruct ts as [t]. reflexivity.
  - eapply Forall_impl; [exact Hkeys|]. intros m [H1 H2].
    apply find_field_Parameters_None; assumption.
Qed.

(** X24: a protocol of the wrong type.  An object with a member [proto],
    letter case aside, whose value is neither a string nor [null] fails
    the validation, wherever the member stands and whatever the other
    members are. *)
Theorem ValidateParameters_wrong_type (ts : hsi.TestStep) (params : TestStepParameters)
    (members : list json.member) (key : string) (span : nat * nat) (v : json.value) :
  IsEmpty (GetOne params transport_Keyword) = false ->
  json.parse (JSON (GetOne params transport_Keyword)) = inr (json.JObject members) ->
  In (key, span, v) members ->
  json.equalFold "proto" key = true ->
  match v with json.JString _ | json.JNull => False | _ => True end ->
  snd (ValidateParameters ts params) <> None.
Proof.
  intros He Hp Hin Hkey Hv.
  unfold hsi.ValidateParameters, hsi.populateParams. cbv zeta. rewrite He.
  unfold json.Unmarshal, hsi.Unmarshal_Parameters, json.Unmarshal_struct. rewrite Hp.
  pose proof (decode_members_Parameters_mismatch
                (string_of_bytes (JSON (GetOne params transport_Keyword)))
                members (hsi.transport ts) None key span v Hin Hkey Hv) as H.
  destruct (json.decode_members _ _ _ _ _ _) as [t [e|]]; [discriminate|].
  exact (False_ind _ (H eq_refl)).
Qed.
End populateParams_properties.

Lemma ValidateParameters_rejected_witness :
  let ts := {| hsi.transport := {| hsi.Proto := "ssh"; hsi.Options := [] |} |} in
  let GetOne (params : list (string * list byte)) (key : string) : list byte :=
    default [] (snd <$> List.find (fun p => String.eqb (fst p) key) params) in
  let IsEmpty (p : list byte) : bool := (length p =? 0)%nat in
  let validate :=
    hsi.ValidateParameters GetOne IsEmpty (fun p => p) "transport"
                           (Parameters_JSON := hsi.Unmarshal_Parameters) in
  let params := [("transport", scenario.json_text "{'proto':'ssh',")] in
  fst (validate ts params) = ts /\ snd (validate ts params) <> None.
Proof.
  intros ts GetOne IsEmpty validate params.
  assert (Hp : json.parse (GetOne params "transport")
               = inl (json_SyntaxError "unexpected end of JSON input" 15))
    by (vm_compute; reflexivity).
  exact (ValidateParameters_rejected GetOne IsEmpty (fun p => p) "transport" ts params
           (or_intror (ex_intro _ _ Hp))).
Defined.

Lemma ValidateParameters_accepted_witness :
  let GetOne (params : list (string * list byte)) (key : string) : list byte :=
    default [] (snd <$> List.find (fun p => String.eqb (fst p) key) params) in
  let IsEmpty (p : list byte) : bool := (length p =? 0)%nat in
  let validate :=
    hsi.ValidateParameters GetOne IsEmpty (fun p => p) "transport"
                           (Parameters_JSON := hsi.Unmarshal_Parameters) in
  let text := scenario.json_text "{'proto':'ssh','options':{'host':'dut01'}}" in
  validate hsi.New [("transport", text)]
  = ({| hsi.transport := {| hsi.Proto := "ssh";
                            hsi.Options := scenario.json_text "{'host':'dut01'}" |} |}, None)
  /\ exists members, json.parse text = inr (json.JObject members).
Proof.
  intros GetOne IsEmpty validate text.
  assert (H : snd (validate hsi.New [("transport", text)]) = None)
    by (vm_compute; reflexivity).
  split; [vm_compute; reflexivity|].
  destruct (ValidateParameters_accepted GetOne IsEmpty (fun p => p) "transport"
              hsi.New [("transport", text)] H) as (_ & [[Hn _]|Ho]).
  - vm_compute in Hn. discriminate Hn.
  - exact Ho.
Defined.
Lemma ValidateParameters_unknown_keys_witness :
  let GetOne (params : list (string * list byte)) (key : string) : list byte :=
    default [] (snd <$> List.find (fun p => String.eqb (fst p) key) params) in
  let IsEmpty (p : list byte) : bool := (length p =? 0)%nat in
  let validate :=
    hsi.ValidateParameters GetOne IsEmpty (fun p => p) "transport"
                           (Parameters_JSON := hsi.Unmarshal_Parameters) in
  validate hsi.New [("transport", scenario.json_text "{'protocol':'ssh'}")]
  = (hsi.New, None).
Proof.
  intros GetOne IsEmpty validate.
  pose (params := [("transport", scenario.json_text "{'protocol':'ssh'}")]).
  assert (He : IsEmpty (GetOne params "transport") = false) by (vm_compute; reflexivity).
  assert (Hp : json.parse (GetOne params "transport")
               = inr (json.JObject [("protocol", (12, 17)%nat, json.JString "ssh")]))
    by (vm_compute; reflexivity).
  assert (Hk : Forall (fun m : json.member =>
                         json.equalFold "proto" (fst (fst m)) = false
                         /\ json.equalFold "options" (fst (fst m)) = false)
                      [("protocol", (12, 17)%nat, json.JString "ssh")]).
  { constructor; [split; vm_compute; reflexivity | constructor]. }
  exact (ValidateParameters_unknown_keys GetOne IsEmpty (fun p => p) "transport"
           hsi.New params _ He Hp Hk).
Defined.

Lemma ValidateParameters_wrong_type_witness :
  let GetOne (params : list (string * list byte)) (key : string) : list byte :=
    default [] (snd <$> List.find (fun p => String.eqb (fst p) key) params) in
  let IsEmpty (p : list byte) : bool := (length p =? 0)%nat in
  let validate :=
    hsi.ValidateParameters GetOne IsEmpty (fun p => p) "transport"
                           (Parameters_JSON := hsi.Unmarshal_Parameters) in
  let params := [("transport", scenario.json_text "{'options':{'host':'dut01'},'PROTO':5}")] in
  snd (validate hsi.New params) <> None
  /\ fst (validate hsi.New params)
     = {| hsi.transport := {| hsi.Proto := "";
                              hsi.Options := scenario.json_text "{'host':'dut01'}" |} |}.
Proof.
  intros GetOne IsEmpty validate params.
  assert (He : IsEmpty (GetOne params "transport") = false) by (vm_compute; reflexivity).
  assert (Hp : json.parse (GetOne params "transport")
               = inr (json.JObject
                        [("options", (11, 27)%nat,
                          json.JObject [("host", (19, 26)%nat, json.JString "dut01")]);
                         ("PROTO", (36, 37)%nat, json.JNumber "5")]))
    by (vm_compute; reflexivity).
  assert (Hk : json.equalFold "proto" "PROTO" = true) by (vm_compute; reflexivity).
  split; [|vm_compute; reflexivity].
  exact (ValidateParameters_wrong_type GetOne IsEmpty (fun p => p) "transport"
           hsi.New params _ "PROTO" (36, 37)%nat (json.JNumber "5")
           He Hp (or_intror (or_introl eq_refl)) Hk I).
Defined.

(** ** The report writers *)

Lemma append_assoc (a b c : string) : (a +:+ b) +:+ c = a +:+ b +:+ c.
Proof.
  induction a as [|x a IH]; [reflexivity|].
  change (String x ((a +:+ b) +:+ c) = String x (a +:+ b +:+ c)). f_equal. exact IH.
Qed.

(** X21: the writers only append.  [writeCommand] and [writeCommandOutput]
    leave what the builder holds in place and add to it a text that does
    not depend on it. *)
Theorem report_writers_append (builder command stdout : string) (args : list string) :
  report.writeCommand builder command args
  = builder +:+ report.writeCommand "" command args
  /\ report.writeCommandOutput builder stdout
     = builder +:+ report.writeCommandOutput "" stdout.
Proof.
  unfold report.writeCommand, report.writeCommandOutput. cbv zeta. cbn [append].
  rewrite !append_assoc. split; reflexivity.
Qed.

(** X22: the command line in the report.  The arguments are joined by single
    spaces after the command, so the report does not tell where one
    argument ends: two arguments read as the one argument that holds both
    with a space between, and no argument reads as one empty argument. *)
Theorem writeCommand_boundaries (builder command x y : string) (rest : list string) :
  report.writeCommand builder command (x :: y :: rest)
  = report.writeCommand builder command ((x +:+ " " +:+ y) :: rest)
  /\ report.writeCommand builder command [] = report.writeCommand builder command [""].
Proof.
  split; [|reflexivity].
  unfold report.writeCommand, report.Join. cbv zeta. do 4 f_equal.
  destruct rest as [|z rest]; cbn [String.concat]; [reflexivity|].
  rewrite !append_assoc. reflexivity.
Qed.


